(** * Size-analysis report builder and analytics registration shim

    A shallow embedding of [repo-scripts/size-analysis/analysis.ts] and of
    the analytics registration module ([registerAnalytics] with its
    [internalFactory]), with the properties of the specification stated
    over it.

    Conventions of the embedding.
    - Strings are [string]; JavaScript numbers that occur (levels, sizes,
      manifest numbers) are integers and are modelled by [Z].
    - Node's [fs], [path], [require] and the helpers imported from
      [./analysis-helper] and [../../scripts] are collaborators: they are
      fields of a record [World].
    - Effects are threaded through a state-and-exception monad [M] whose
      state is the chronological list of collaborator calls that have an
      observable effect ([Event]).  [await e] is modelled by sequencing:
      the awaited call runs to completion before the caller continues.
    - An object used as a dictionary ([result] in [buildJsonReport]) is an
      ordered property list with the enumeration order of ordinary
      objects; an assignment to the accessor key [__proto__] of
      [Object.prototype] creates no property.
    - A call of an [async] function without [await] runs the callee up
      to its first [await]; what the callee does after that is not part
      of the caller's run. *)

From Stdlib Require Import ZArith NArith List String Ascii Bool Lia Permutation.
From Stdlib Require Import DecimalString.
From stdpp Require Import base gmap strings.
From Equations Require Import Equations.

Import ListNotations.
Local Open Scope string_scope.
Local Open Scope list_scope.

(** ** JavaScript values read from a package manifest *)

Module Js.

(** A value found under a key of a parsed JSON document.  The script
    only tests such a value and splices it into a template literal, so
    a number is kept through whether it is non-zero and through its
    string conversion, and an object or array through its string
    conversion. *)
Inductive Value : Type :=
| VUndefined
| VNull
| VBool (b : bool)
| VNumber (nonzero : bool) (repr : string)
| VString (s : string)
| VObject (repr : string).

(** The decimal numeral of an integer. *)
Definition decimal (z : Z) : string :=
  NilZero.string_of_int (Z.to_int z).

(** The double nearest to a non-negative integer, ties to even, as an
    integer ([2^1024] and above stand for an overflow). *)
Definition nearest_double (x : Z) : Z :=
  let bits := (Z.log2 x + 1)%Z in
  if (bits <=? 53)%Z then x
  else
    let sh := (bits - 53)%Z in
    let q := Z.shiftr x sh in
    let r := (x - Z.shiftl q sh)%Z in
    let half := Z.shiftl 1 (sh - 1) in
    let q' := if (half <? r)%Z || ((r =? half)%Z && Z.odd q) then (q + 1)%Z else q in
    Z.shiftl q' sh.

Definition finite (x : Z) : bool := (nearest_double (Z.abs x) <? 2 ^ 1024)%Z.

(** The multiples of [10^j] next to [x], the nearer first. *)
Definition roundings (x : Z) (j : Z) : list Z :=
  let p := (10 ^ j)%Z in
  let lo := ((x / p) * p)%Z in
  let hi := (lo + p)%Z in
  if (2 * (x - lo) <? p)%Z then [lo; hi]
  else if (p <? 2 * (x - lo))%Z then [hi; lo]
  else if Z.even (x / p) then [lo; hi] else [hi; lo].

(** The decimal with the fewest significant digits that still denotes
    the double [x], of [n] digits: [ks] lists the numbers of digits to
    try. *)
Fixpoint shortest (x : Z) (n : Z) (ks : list Z) : Z :=
  match ks with
  | [] => x
  | k :: ks' =>
      match List.filter (fun y => (nearest_double y =? x)%Z) (roundings x (n - k)) with
      | y :: _ => y
      | [] => shortest x n ks'
      end
  end.

Fixpoint strip_zeros (s : list ascii) : list ascii :=
  match s with
  | "0"%char :: s' => strip_zeros s'
  | _ => s
  end.

Definition significant (s : string) : string :=
  string_of_list_ascii (rev (strip_zeros (rev (list_ascii_of_string s)))).

Definition digits_of (s : string) : Z := Z.of_nat (String.length s).

Definition exponent_form (digits : string) : string :=
  match significant digits with
  | String d EmptyString => String d ("e+" ++ decimal (digits_of digits - 1))
  | String d rest =>
      String d ("." ++ rest ++ "e+" ++ decimal (digits_of digits - 1))
  | EmptyString => digits
  end.

(** [Number::toString] of the double nearest to a non-negative
    integer: the integers up to [2^53] are printed in full, larger ones
    by their shortest digits, in exponent form from [10^21]. *)
Definition toString_nonneg (z : Z) : string :=
  if (z <=? 2 ^ 53)%Z then decimal z
  else
    let x := nearest_double z in
    if (2 ^ 1024 <=? x)%Z then "Infinity"
    else
      let n := digits_of (decimal x) in
      let y := shortest x n (List.map Z.of_nat (seq 1 (Z.to_nat n))) in
      let digits := decimal y in
      if (digits_of digits <=? 21)%Z then digits else exponent_form digits.

(** [Number::toString] of an integer-valued number. *)
Definition string_of_Z (z : Z) : string :=
  if (z <? 0)%Z then "-" ++ toString_nonneg (- z) else toString_nonneg z.

(** [ToBoolean]. *)
Definition truthy (v : Value) : bool :=
  match v with
  | VUndefined | VNull => false
  | VBool b => b
  | VNumber nonzero _ => nonzero
  | VString s => negb (String.eqb s EmptyString)
  | VObject _ => true
  end.

(** [ToString], as applied by a template literal. *)
Definition toString (v : Value) : string :=
  match v with
  | VUndefined => "undefined"
  | VNull => "null"
  | VBool true => "true"
  | VBool false => "false"
  | VNumber _ repr => repr
  | VString s => s
  | VObject repr => repr
  end.

(** Truthiness of an optional string such as a yargs option of type
    ['string']: [undefined] and the empty string are falsy. *)
Definition truthy_opt (o : option string) : bool :=
  match o with
  | Some s => negb (String.eqb s EmptyString)
  | None => false
  end.

End Js.

(** ** Ordinary objects used as dictionaries *)

Module Obj.

Section Props.
Context {V : Type}.

(** Own properties in enumeration order. *)
Definition t : Type := list (string * V).

Definition empty : t := [].

Definition keys (o : t) : list string := map fst o.

Fixpoint get (k : string) (o : t) : option V :=
  match o with
  | [] => None
  | (k', v) :: o' => if String.eqb k k' then Some v else get k o'
  end.

Definition has (k : string) (o : t) : bool :=
  match get k o with Some _ => true | None => false end.

Definition is_digit (c : ascii) : bool :=
  (48 <=? N_of_ascii c)%N && (N_of_ascii c <=? 57)%N.

Fixpoint digits_value (s : string) (acc : N) : option N :=
  match s with
  | EmptyString => Some acc
  | String c s' =>
      if is_digit c
      then digits_value s' (10 * acc + (N_of_ascii c - 48))%N
      else None
  end.

(** A key is an array index when it is the canonical decimal numeral
    of an integer below [2^32 - 1]. *)
Definition array_index (k : string) : option N :=
  match k with
  | EmptyString => None
  | String "0"%char EmptyString => Some 0%N
  | String "0"%char _ => None
  | _ =>
      match digits_value k 0 with
      | Some n => if (n <? 4294967295)%N then Some n else None
      | None => None
      end
  end.

(** Overwriting an existing property keeps its position. *)
Fixpoint replace (k : string) (v : V) (o : t) : t :=
  match o with
  | [] => []
  | (k', v') :: o' =>
      if String.eqb k k' then (k, v) :: o' else (k', v') :: replace k v o'
  end.

(** Array-index keys are enumerated first, in ascending order. *)
Fixpoint insert_index (n : N) (k : string) (v : V) (o : t) : t :=
  match o with
  | [] => [(k, v)]
  | (k', v') :: o' =>
      match array_index k' with
      | Some n' =>
          if (n' <? n)%N then (k', v') :: insert_index n k v o'
          else (k, v) :: o
      | None => (k, v) :: o
      end
  end.

(** [o[k] = v], for an object [v].  The key [__proto__] is the
    accessor of [Object.prototype]: assigning to it changes the
    prototype of [o] and creates no own property. *)
Definition set (k : string) (v : V) (o : t) : t :=
  if String.eqb k "__proto__" then o
  else if has k o then replace k v o
  else match array_index k with
       | Some n => insert_index n k v o
       | None => o ++ [(k, v)]
       end.

End Props.

Arguments t : clear implicits.

End Obj.

(** ** [JSON.stringify] *)

Module JSON.

#[warnings="-register-all"]
Inductive Json : Type :=
| JNumber (z : Z)
| JString (s : string)
| JArray (xs : list Json)
| JObject (ps : list (string * Json)).

Definition hex_digit (n : N) : ascii :=
  if (n <? 10)%N then ascii_of_N (48 + n) else ascii_of_N (87 + n).

(** One code unit of [QuoteJSONString]. *)
Definition quote_char (c : ascii) : string :=
  let n := N_of_ascii c in
  if (n =? 8)%N then "\b"
  else if (n =? 9)%N then "\t"
  else if (n =? 10)%N then "\n"
  else if (n =? 12)%N then "\f"
  else if (n =? 13)%N then "\r"
  else if (n =? 34)%N then String "\" (String c EmptyString)
  else if (n =? 92)%N then "\\"
  else if (n <? 32)%N
       then "\u00" ++ String (hex_digit (n / 16)) (String (hex_digit (n mod 16)) EmptyString)
       else String c EmptyString.

Fixpoint quote_body (s : string) : string :=
  match s with
  | EmptyString => EmptyString
  | String c s' => quote_char c ++ quote_body s'
  end.

Definition dquote : string := String (ascii_of_N 34) EmptyString.

Definition quote (s : string) : string := dquote ++ quote_body s ++ dquote.

Fixpoint join (sep : string) (xs : list string) : string :=
  match xs with
  | [] => EmptyString
  | [x] => x
  | x :: xs' => x ++ sep ++ join sep xs'
  end.

Definition newline : string := String (ascii_of_N 10) EmptyString.

(** [SerializeJSONArray] / [SerializeJSONObject] wrapping of the
    already serialized members. *)
Definition wrap (opening closing gap stepback indent : string)
    (partial : list string) : string :=
  match partial with
  | [] => opening ++ closing
  | _ =>
      if String.eqb gap EmptyString
      then opening ++ join "," partial ++ closing
      else opening ++ newline ++ indent
           ++ join ("," ++ newline ++ indent) partial
           ++ newline ++ stepback ++ closing
  end.

(** [SerializeJSONProperty] with the current indentation [indent]. *)
Fixpoint serialize (gap indent : string) (j : Json) : string :=
  match j with
  | JNumber z => if Js.finite z then Js.string_of_Z z else "null"
  | JString s => quote s
  | JArray xs =>
      wrap "[" "]" gap indent (indent ++ gap)
        (map (serialize gap (indent ++ gap)) xs)
  | JObject ps =>
      wrap "{" "}" gap indent (indent ++ gap)
        (map (fun '(k, v) =>
                (quote k ++ ":"
                 ++ (if String.eqb gap EmptyString then EmptyString else " ")
                 ++ serialize gap (indent ++ gap) v)%string) ps)
  end.

Fixpoint spaces (n : nat) : string :=
  match n with
  | O => EmptyString
  | S n' => String " "%char (spaces n')
  end.

(** [JSON.stringify(value, null, space)] for a numeric [space]
    (clamped to ten). *)
Definition stringify (j : Json) (space : nat) : string :=
  serialize (spaces (Nat.min space 10)) EmptyString j.

End JSON.

(** ** Data of the analysis *)

(** The four categories of exported symbols, which are the property
    names of a [MemberList]. *)
Inductive Category : Type := Classes | Functions | Variables | Enums.

Definition key_name (c : Category) : string :=
  match c with
  | Classes => "classes"
  | Functions => "functions"
  | Variables => "variables"
  | Enums => "enums"
  end.

(** Modelled from the spec: the interface [MemberList] of
    [./analysis-helper] (section 3: four categories of exported symbol
    names).  [own_keys] is the own-property order of the object, which
    [Object.keys] enumerates; it is fixed by the code that creates the
    object and is left open here. *)
Record MemberList : Type := {
  own_keys : list Category;
  classes : list string;
  functions : list string;
  variables : list string;
  enums : list string
}.

(** [api[key]]. *)
Definition member (api : MemberList) (c : Category) : list string :=
  match c with
  | Classes => classes api
  | Functions => functions api
  | Variables => variables api
  | Enums => enums api
  end.

(** Modelled from the spec: the interface [ExportData] of
    [./analysis-helper] (section 3 and section 6: a dependency list and a
    size in bytes, in this property order). *)
Record ExportData : Type := {
  dependencies : list string;
  size : Z
}.

Definition json_of_ExportData (d : ExportData) : JSON.Json :=
  JSON.JObject
    [("dependencies", JSON.JArray (map JSON.JString (dependencies d)));
     ("size", JSON.JNumber (size d))].

Definition json_of_report (o : Obj.t ExportData) : JSON.Json :=
  JSON.JObject (map (fun '(k, d) => (k, json_of_ExportData d)) o).

(** The text of a report, written out: one member per entry of the
    object, in its order, at four spaces; the two properties of an
    entry at eight spaces; the dependencies, when there are some, one
    per line at twelve spaces. *)
Definition dependencies_text (deps : list string) : string :=
  match deps with
  | [] => "[]"
  | _ =>
      "[" ++ JSON.newline ++ "            "
      ++ JSON.join ("," ++ JSON.newline ++ "            ") (map JSON.quote deps)
      ++ JSON.newline ++ "        " ++ "]"
  end.

Definition size_text (z : Z) : string :=
  if Js.finite z then Js.string_of_Z z else "null".

Definition entry_text (entry : string * ExportData) : string :=
  JSON.quote (fst entry) ++ ": "
  ++ "{" ++ JSON.newline ++ "        "
  ++ (JSON.quote "dependencies" ++ ": " ++ dependencies_text (dependencies (snd entry)))
  ++ "," ++ JSON.newline ++ "        "
  ++ (JSON.quote "size" ++ ": " ++ size_text (size (snd entry)))
  ++ JSON.newline ++ "    " ++ "}".

Definition report_text (o : Obj.t ExportData) : string :=
  match o with
  | [] => "{}"
  | _ =>
      "{" ++ JSON.newline ++ "    "
      ++ JSON.join ("," ++ JSON.newline ++ "    ") (map entry_text o)
      ++ JSON.newline ++ "}"
  end.

(** The members of [ErrorCode] ([./analysis-helper]) that
    [analysis.ts] throws. *)
Inductive ErrorCode : Type :=
| INVALID_FLAG_COMBINATION
| BUNDLE_FILE_DOES_NOT_EXIST
| INPUT_FILE_DOES_NOT_EXIST
| REPORT_REDIRECTION_ERROR.

(** What a call can throw: [new Error(ErrorCode.c)] raised by a [throw]
    statement of [analysis.ts], or a failure raised inside a
    collaborator (the two are told apart by where they are raised). *)
Inductive exn : Type :=
| JsError (c : ErrorCode)
| Foreign (what : string).

Inductive outcome (A : Type) : Type :=
| Ok (a : A)
| Raise (e : exn).
Arguments Ok {A} a.
Arguments Raise {A} e.

(** The answer of a collaborator: a value, or a failure of its own. *)
Inductive reply (A : Type) : Type :=
| Returns (a : A)
| Fails (what : string).
Arguments Returns {A} a.
Arguments Fails {A} what.

(** Collaborator calls with an observable effect, as they are logged.
    [EvExecutor] is logged only by an executor that has been
    instrumented to record its invocations. *)
Inductive Event : Type :=
| EvExtractDeclarations (dtsFile : string)
| EvExtractDependenciesAndSize (exp jsFile : string) (map : gmap string string)
| EvWriteReportToDirectory (json fileName directory : string)
| EvWriteReportToFile (json file : string)
| EvConsoleLogMembers (api : MemberList)
| EvConsoleLog (text : string)
| EvExecutor (moduleLocation : string).

(** The environment of a run.  The file system is read-only during a
    run; the per-symbol extractor may answer differently from one call to
    the next, so it is given the history of the run. *)
Record World : Type := {
  existsSync : string -> bool;
  readdirSync : string -> reply (list string);
  lstatSync_isDirectory : string -> reply bool;
  require : string -> reply (string -> Js.Value);
  resolve : string -> string;
  basename : string -> string;
  extractDeclarations : string -> reply MemberList;
  extractDependenciesAndSize :
    list Event -> string -> string -> gmap string string -> reply ExportData;
  writeReportToDirectory : string -> string -> string -> reply unit;
  writeReportToFile : string -> string -> reply unit;
  mapWorkspaceToPackages : list string -> reply (list string);
  projectRoot : string
}.

Definition TYPINGS : string := "typings".
Definition BUNDLE : string := "esm2017".

(** ** The monad of effects *)

Definition M (A : Type) : Type := list Event -> outcome A * list Event.

Definition ret {A} (a : A) : M A := fun log => (Ok a, log).

Definition bind {A B} (m : M A) (k : A -> M B) : M B :=
  fun log =>
    match m log with
    | (Ok a, log') => k a log'
    | (Raise e, log') => (Raise e, log')
    end.

Definition throw {A} (e : exn) : M A := fun log => (Raise e, log).

Definition tell (ev : Event) : M unit := fun log => (Ok tt, log ++ [ev]).

(** A call of a collaborator: its failure propagates as an exception. *)
Definition lift {A} (r : reply A) : M A :=
  fun log =>
    match r with
    | Returns a => (Ok a, log)
    | Fails what => (Raise (Foreign what), log)
    end.

Definition history : M (list Event) := fun log => (Ok log, log).

Declare Scope js_scope.
Delimit Scope js_scope with js.
Notation "'let*' x ':=' m 'in' k" := (bind m (fun x => k))
  (at level 10, x name, m at level 100, k at level 200) : js_scope.
Notation "m >> k" := (bind m (fun _ => k))
  (at level 100, k at level 200, right associativity) : js_scope.
Local Open Scope js_scope.

(** [for (const x of xs) body] *)
Fixpoint for_of {A} (xs : list A) (body : A -> M unit) : M unit :=
  match xs with
  | [] => ret tt
  | x :: xs' => body x >> for_of xs' body
  end.

(** [for (const x of xs) acc = body(x, acc)], for a loop that updates a
    local variable. *)
Fixpoint for_of_acc {A S} (xs : list A) (body : A -> S -> M S) (acc : S) : M S :=
  match xs with
  | [] => ret acc
  | x :: xs' => let* acc' := body x acc in for_of_acc xs' body acc'
  end.

(** [xs.filter(p)] for a predicate that may throw. *)
Fixpoint filter_array {A} (xs : list A) (p : A -> M bool) : M (list A) :=
  match xs with
  | [] => ret []
  | x :: xs' =>
      let* keep := p x in
      let* rest := filter_array xs' p in
      ret (if keep then x :: rest else rest)
  end.

(** A call of an [async] function whose promise is dropped.  [started]
    is the part of the callee that runs before its first [await]: it
    runs at the call site, and its outcome goes into the promise, so
    that the call itself never throws.  What the callee does after its
    first [await] happens after the caller has gone on, and is not part
    of the caller's run. *)
Definition not_awaited (started : M unit) : M unit :=
  fun log => (Ok tt, snd (started log)).

(** ** [analysis.ts] *)

(** The options that [yargs] hands to [main]. *)
Record Argv : Type := {
  inputModule : option (list string);
  inputDtsFile : option string;
  inputBundleFile : option string;
  ci : bool;
  output : option string
}.

(** [buildMap]: every symbol is mapped to the key under which it is
    listed; a later [map.set] of the same symbol overwrites. *)
Definition buildMap (api : MemberList) : gmap string string :=
  fold_left
    (fun map key =>
       fold_left (fun map element => <[element := key_name key]> map)
                 (member api key) map)
    (own_keys api) (∅ : gmap string string).

(** The symbols of a [MemberList] in the order in which the loops of
    [buildJsonReport] visit them. *)
Definition symbols (api : MemberList) : list string :=
  classes api ++ functions api ++ variables api ++ enums api.

Section Analysis.

Variable w : World.

Definition call_extractDependenciesAndSize
    (exp jsFile : string) (map : gmap string string) : M ExportData :=
  let* h := history in
  tell (EvExtractDependenciesAndSize exp jsFile map) >>
  lift (extractDependenciesAndSize w h exp jsFile map).

Definition call_extractDeclarations (dtsFile : string) : M MemberList :=
  tell (EvExtractDeclarations dtsFile) >>
  lift (extractDeclarations w dtsFile).

Definition call_writeReportToDirectory (json fileName directory : string) : M unit :=
  tell (EvWriteReportToDirectory json fileName directory) >>
  lift (writeReportToDirectory w json fileName directory).

Definition call_writeReportToFile (json file : string) : M unit :=
  tell (EvWriteReportToFile json file) >>
  lift (writeReportToFile w json file).

(** A string parameter that receives [undefined]: [path.resolve] and
    [path.basename] reject an argument that is not a string. *)
Definition string_arg (p : option string) : M string :=
  match p with
  | Some s => ret s
  | None => throw (Foreign "TypeError")
  end.

Definition call_basename (v : Js.Value) : M string :=
  match v with
  | Js.VString s => ret (basename w s)
  | _ => throw (Foreign "TypeError")
  end.

Definition uploadReportToCI : M unit := tell (EvConsoleLog "TODO").

(** The body of one of the four loops of [buildJsonReport]. *)
Definition record_export (jsFile : string) (map : gmap string string)
    (exp : string) (result : Obj.t ExportData) : M (Obj.t ExportData) :=
  let* d := call_extractDependenciesAndSize exp jsFile map in
  ret (Obj.set exp d result).

(** The object [result] of [buildJsonReport] when its loops are done. *)
Definition buildJsonReport_result (publicApi : MemberList) (jsFile : string)
    (map : gmap string string) : M (Obj.t ExportData) :=
  let result := Obj.empty in
  let* result := for_of_acc (classes publicApi) (record_export jsFile map) result in
  let* result := for_of_acc (functions publicApi) (record_export jsFile map) result in
  let* result := for_of_acc (variables publicApi) (record_export jsFile map) result in
  let* result := for_of_acc (enums publicApi) (record_export jsFile map) result in
  ret result.

Definition buildJsonReport (publicApi : MemberList) (jsFile : string)
    (map : gmap string string) : M string :=
  let* result := buildJsonReport_result publicApi jsFile map in
  ret (JSON.stringify (json_of_report result) 4).

Definition generateReport (dtsFile bundleFile : string) : M string :=
  let resolvedDtsFile := resolve w dtsFile in
  let resolvedBundleFile := resolve w bundleFile in
  if negb (existsSync w resolvedDtsFile) || negb (existsSync w resolvedBundleFile)
  then throw (JsError INPUT_FILE_DOES_NOT_EXIST)
  else
    let* publicAPI := call_extractDeclarations resolvedDtsFile in
    tell (EvConsoleLogMembers publicAPI) >>
    let map := buildMap publicAPI in
    buildJsonReport publicAPI bundleFile map.

Definition generateReportForModule (path : string)
    (outputDirectory : option string) (writeFiles uploadToCI : bool) : M unit :=
  let packageJsonPath := (path ++ "/package.json")%string in
  if negb (existsSync w packageJsonPath) then ret tt
  else
    let* packageJson := lift (require w packageJsonPath) in
    if Js.truthy (packageJson TYPINGS) then
      let dtsFile := (path ++ "/" ++ Js.toString (packageJson TYPINGS))%string in
      if negb (Js.truthy (packageJson BUNDLE))
      then throw (JsError BUNDLE_FILE_DOES_NOT_EXIST)
      else
        let bundleFile := (path ++ "/" ++ Js.toString (packageJson BUNDLE))%string in
        let* json := generateReport dtsFile bundleFile in
        let* base := call_basename (packageJson "name") in
        let fileName := (base ++ "-dependency.json")%string in
        (if writeFiles
         then let* dir := string_arg outputDirectory in
              call_writeReportToDirectory json fileName (resolve w dir)
         else ret tt) >>
        (if uploadToCI then uploadReportToCI else ret tt)
    else ret tt.

(** The type of the parameter [executor] of [traverseDirs]. *)
Definition Executor : Type := string -> option string -> bool -> bool -> M unit.

Equations? traverseDirs (moduleLocation : string)
    (outputDirectory : option string) (writeFiles uploadToCI : bool)
    (executor : Executor) (level levelLimit : Z) : M unit
    by wf (Z.to_nat (levelLimit + 1 - level)) lt :=
  traverseDirs moduleLocation outputDirectory writeFiles uploadToCI
               executor level levelLimit with Z_gt_dec level levelLimit := {
    | left _ => ret tt
    | right _ =>
        executor moduleLocation outputDirectory writeFiles uploadToCI >>
        let* names := lift (readdirSync w moduleLocation) in
        for_of names (fun name =>
          let p := (moduleLocation ++ "/" ++ name)%string in
          let* isDirectory := lift (lstatSync_isDirectory w p) in
          if isDirectory
          then traverseDirs p outputDirectory writeFiles uploadToCI
                            executor (level + 1) levelLimit
          else ret tt) }.
Proof. lia. Qed.

(** The part of [buildJsonReport] before its first [await]: the call of
    [extractDependenciesAndSize] for the first symbol that the loops
    meet; without any symbol, the function runs to its end. *)
Definition buildJsonReport_started (publicApi : MemberList) (jsFile : string)
    (map : gmap string string) : M unit :=
  match symbols publicApi with
  | exp :: _ => tell (EvExtractDependenciesAndSize exp jsFile map)
  | [] => ret tt
  end.

(** The part of [generateReport] before the first [await] of the
    [buildJsonReport] that it calls. *)
Definition generateReport_started (dtsFile bundleFile : string) : M unit :=
  let resolvedDtsFile := resolve w dtsFile in
  let resolvedBundleFile := resolve w bundleFile in
  if negb (existsSync w resolvedDtsFile) || negb (existsSync w resolvedBundleFile)
  then throw (JsError INPUT_FILE_DOES_NOT_EXIST)
  else
    let* publicAPI := call_extractDeclarations resolvedDtsFile in
    tell (EvConsoleLogMembers publicAPI) >>
    let map := buildMap publicAPI in
    buildJsonReport_started publicAPI bundleFile map.

(** The part of [generateReportForModule] before its [await]
    (line 111), which is the first. *)
Definition generateReportForModule_started (path : string)
    (outputDirectory : option string) (writeFiles uploadToCI : bool) : M unit :=
  let packageJsonPath := (path ++ "/package.json")%string in
  if negb (existsSync w packageJsonPath) then ret tt
  else
    let* packageJson := lift (require w packageJsonPath) in
    if Js.truthy (packageJson TYPINGS) then
      let dtsFile := (path ++ "/" ++ Js.toString (packageJson TYPINGS))%string in
      if negb (Js.truthy (packageJson BUNDLE))
      then throw (JsError BUNDLE_FILE_DOES_NOT_EXIST)
      else
        let bundleFile := (path ++ "/" ++ Js.toString (packageJson BUNDLE))%string in
        generateReport_started dtsFile bundleFile
    else ret tt.

Definition generateReportForModules (moduleLocations : list string)
    (outputDirectory : option string) (writeFiles uploadToCI : bool) : M unit :=
  for_of moduleLocations (fun moduleLocation =>
    traverseDirs moduleLocation outputDirectory writeFiles uploadToCI
      (fun path out wf up =>
         not_awaited (generateReportForModule_started path out wf up))
      0 1).

(** [argv.inputModule.includes(json.name)] *)
Definition includes (xs : list string) (v : Js.Value) : bool :=
  match v with
  | Js.VString s => existsb (String.eqb s) xs
  | _ => false
  end.

Definition main (argv : Argv) : M unit :=
  if negb (Js.truthy_opt (output argv)) && negb (ci argv)
  then throw (JsError REPORT_REDIRECTION_ERROR)
  else
    if Js.truthy_opt (inputDtsFile argv) && Js.truthy_opt (inputBundleFile argv)
       && Js.truthy_opt (output argv)
    then
      let* dts := string_arg (inputDtsFile argv) in
      let* bundle := string_arg (inputBundleFile argv) in
      let* jsonReport := generateReport dts bundle in
      let* file := string_arg (output argv) in
      call_writeReportToFile jsonReport (resolve w file)
    else if negb (Js.truthy_opt (inputDtsFile argv))
            && negb (Js.truthy_opt (inputBundleFile argv))
    then
      let* allModulesLocation :=
        lift (mapWorkspaceToPackages w [(projectRoot w ++ "/packages-exp/*")%string]) in
      let* allModulesLocation :=
        match inputModule argv with
        | Some names =>
            filter_array allModulesLocation (fun path =>
              let* json := lift (require w (path ++ "/package.json")%string) in
              ret (includes names (json "name")))
        | None => ret allModulesLocation
        end in
      let writeFiles := Js.truthy_opt (output argv) in
      let uploadToCI := ci argv in
      generateReportForModules allModulesLocation (output argv) writeFiles uploadToCI
    else throw (JsError INVALID_FLAG_COMBINATION).

End Analysis.

(** ** The analytics registration module *)

(** What a call of the registration module does: it returns a value or
    throws one. *)
Inductive attempt (E A : Type) : Type :=
| Done (a : A)
| Thrown (e : E).
Arguments Done {E A} a.
Arguments Thrown {E A} e.

(** [try { body } catch (e) { handler(e) }] *)
Definition try_catch {E E' A} (body : attempt E A) (handler : E -> attempt E' A)
  : attempt E' A :=
  match body with
  | Done a => Done a
  | Thrown e => handler e
  end.

Definition and_then {E A B} (m : attempt E A) (k : A -> attempt E B) : attempt E B :=
  match m with
  | Done a => k a
  | Thrown e => Thrown e
  end.

(** The member of [AnalyticsError] ([./errors]) that the module uses. *)
Inductive AnalyticsError : Type := INTEROP_COMPONENT_REG_FAILED.

(** Modelled from the spec: the error that [ERROR_FACTORY.create(code,
    { reason })] of [./errors] builds (section 7: the original cause is
    kept as a nested reason). *)
Record FirebaseError (E : Type) : Type := {
  code : AnalyticsError;
  reason : E
}.
Arguments code {E} _.
Arguments reason {E} _.

Section Registration.

(** [E]: the values that the container can throw.  [Analytics]: the
    client.  [Params], [Options], [Logged]: the parameters and the
    result of [logEvent] of [./api]. *)
Variables E Analytics Params Options Logged : Type.

Record Provider : Type := {
  getImmediate : attempt E Analytics
}.

Record ComponentContainer : Type := {
  getProvider : string -> attempt E Provider
}.

(** [FirebaseAnalyticsInternal] of [@firebase/analytics-interop-types]:
    the object literal that [internalFactory] returns has this one
    property. *)
Record FirebaseAnalyticsInternal : Type := {
  logEvent : string -> option Params -> option Options -> Logged
}.

Variable ANALYTICS_TYPE : string.
Variable api_logEvent :
  Analytics -> string -> option Params -> option Options -> Logged.

Definition ERROR_FACTORY_create (c : AnalyticsError) (e : E) : FirebaseError E :=
  {| code := c; reason := e |}.

Definition internalFactory (container : ComponentContainer)
  : attempt (FirebaseError E) FirebaseAnalyticsInternal :=
  try_catch
    (and_then (getProvider container ANALYTICS_TYPE) (fun provider =>
     and_then (getImmediate provider) (fun analytics =>
     Done {| logEvent := fun eventName eventParams options =>
               api_logEvent analytics eventName eventParams options |})))
    (fun e => Thrown (ERROR_FACTORY_create INTEROP_COMPONENT_REG_FAILED e)).

End Registration.

Arguments getImmediate {E Analytics} _.
Arguments getProvider {E Analytics} _ _.
Arguments logEvent {Params Options Logged} _ _ _ _.
Arguments internalFactory {E Analytics Params Options Logged} _ _ _.

(** ** Observing a run *)

(** The events that [m] adds to the log [log]. *)
Definition emitted {A} (m : M A) (log : list Event) : list Event :=
  skipn (length log) (snd (m log)).

Definition is_extraction (ev : Event) : bool :=
  match ev with
  | EvExtractDeclarations _ | EvExtractDependenciesAndSize _ _ _ => true
  | _ => false
  end.

Definition is_write (ev : Event) : bool :=
  match ev with
  | EvWriteReportToDirectory _ _ _ | EvWriteReportToFile _ _ => true
  | _ => false
  end.

(** [m] fails only through its collaborators: it never raises an
    [ErrorCode] of its own. *)
Definition foreign_only {A} (m : M A) : Prop :=
  forall log c, fst (m log) <> Raise (JsError c).

(** The executor [body], made to record each of its invocations. *)
Definition instrumented (body : Executor) : Executor :=
  fun moduleLocation outputDirectory writeFiles uploadToCI =>
    tell (EvExecutor moduleLocation) >>
    body moduleLocation outputDirectory writeFiles uploadToCI.

(** Every event that [m] adds to the log satisfies [P]. *)
Definition emits {A} (P : Event -> Prop) (m : M A) : Prop :=
  forall log, exists evs, snd (m log) = log ++ evs /\ Forall P evs.

Definition not_EvExecutor (ev : Event) : Prop :=
  forall p, ev <> EvExecutor p.

(** An executor that records no invocation of its own. *)
Definition quiet (body : Executor) : Prop :=
  forall p o wf up, emits not_EvExecutor (body p o wf up).

(** [below w root k p]: the directory [p] is [k] levels below [root],
    each level being an entry of [readdirSync] that [lstatSync] reports
    as a directory. *)
Inductive below (w : World) (root : string) : nat -> string -> Prop :=
| below_root : below w root 0 root
| below_child k p names name :
    below w root k p ->
    readdirSync w p = Returns names ->
    In name names ->
    lstatSync_isDirectory w (p ++ "/" ++ name) = Returns true ->
    below w root (S k) (p ++ "/" ++ name).

(** An invocation recorded at [level] or deeper stays within
    [levelLimit]. *)
Definition within (w : World) (root : string) (level levelLimit : Z) (ev : Event) : Prop :=
  forall p, ev = EvExecutor p ->
    exists k, (level + Z.of_nat k <= levelLimit)%Z /\ below w root k p.

(** The symbols that [buildJsonReport] visits before, and after, the
    loop over the category [c]. *)
Definition processed_before (api : MemberList) (c : Category) : list string :=
  match c with
  | Classes => []
  | Functions => classes api
  | Variables => classes api ++ functions api
  | Enums => classes api ++ functions api ++ variables api
  end.

Definition processed_after (api : MemberList) (c : Category) : list string :=
  match c with
  | Classes => functions api ++ variables api ++ enums api
  | Functions => variables api ++ enums api
  | Variables => enums api
  | Enums => []
  end.

(** The inner loop of [buildMap]. *)
Definition set_all (key : string) (map : gmap string string) (elements : list string)
  : gmap string string :=
  fold_left (fun map element => <[element := key]> map) elements map.

(** ** Environments and inputs of the closed examples *)

(** A fixed environment for closed examples: the files [files] exist,
    every manifest is [manifest], every declaration file exports [api]
    and the per-symbol extractor answers [answer]. *)
Definition mock_world (files : list string) (manifest : string -> Js.Value)
    (api : MemberList) (answer : list Event -> string -> reply ExportData) : World := {|
  existsSync := fun p => existsb (String.eqb p) files;
  readdirSync := fun _ => Returns [];
  lstatSync_isDirectory := fun _ => Returns false;
  require := fun _ => Returns manifest;
  resolve := fun p => p;
  basename := fun p => p;
  extractDeclarations := fun _ => Returns api;
  extractDependenciesAndSize := fun h exp _ _ => answer h exp;
  writeReportToDirectory := fun _ _ _ => Returns tt;
  writeReportToFile := fun _ _ => Returns tt;
  mapWorkspaceToPackages := fun _ => Returns [];
  projectRoot := "/repo"
|}.

Definition no_members : MemberList := {|
  own_keys := [Classes; Functions; Variables; Enums];
  classes := []; functions := []; variables := []; enums := []
|}.

Definition typings_only_manifest (key : string) : Js.Value :=
  if String.eqb key "typings" then Js.VString "dist/index.d.ts"
  else if String.eqb key "name" then Js.VString "@firebase/functions-exp"
  else Js.VUndefined.

Definition typings_only_world : World :=
  mock_world ["/m/package.json"] typings_only_manifest no_members
             (fun _ _ => Fails "unused").

Definition argv_modules_only : Argv := {|
  inputModule := Some ["@firebase/functions-exp"];
  inputDtsFile := None;
  inputBundleFile := None;
  ci := false;
  output := None
|}.

Definition argv_adhoc_ci : Argv := {|
  inputModule := None;
  inputDtsFile := Some "dist/index.d.ts";
  inputBundleFile := Some "dist/index.esm2017.js";
  ci := true;
  output := None
|}.

Definition argv_only_inputDtsFile : Argv := {|
  inputModule := None;
  inputDtsFile := Some "dist/index.d.ts";
  inputBundleFile := None;
  ci := false;
  output := None
|}.

Definition argv_inputDtsFile_output : Argv := {|
  inputModule := None;
  inputDtsFile := Some "dist/index.d.ts";
  inputBundleFile := None;
  ci := false;
  output := Some "report.json"
|}.

Definition foo_Bar_members (keys : list Category) : MemberList := {|
  own_keys := keys;
  classes := ["Bar"];
  functions := ["foo"];
  variables := [];
  enums := []
|}.

Definition foo_data : ExportData := {| dependencies := []; size := 10 |}.
Definition Bar_data : ExportData := {| dependencies := ["foo"]; size := 25 |}.

Definition foo_Bar_answer (h : list Event) (exp : string) : reply ExportData :=
  if String.eqb exp "foo" then Returns foo_data
  else if String.eqb exp "Bar" then Returns Bar_data
  else Fails "unknown symbol".

Definition foo_Bar_world : World :=
  mock_world ["index.d.ts"; "index.esm2017.js"] (fun _ => Js.VUndefined)
             (foo_Bar_members [Classes; Functions; Variables; Enums]) foo_Bar_answer.

(** The text of the report of the scenario of C2: a string in double
    quotes is written [q s]. *)
Definition q (s : string) : string := (JSON.dquote ++ s ++ JSON.dquote)%string.

Definition foo_Bar_report : string :=
  JSON.join JSON.newline
    [ "{";
      "    " ++ q "Bar" ++ ": {";
      "        " ++ q "dependencies" ++ ": [";
      "            " ++ q "foo";
      "        ],";
      "        " ++ q "size" ++ ": 25";
      "    },";
      "    " ++ q "foo" ++ ": {";
      "        " ++ q "dependencies" ++ ": [],";
      "        " ++ q "size" ++ ": 10";
      "    }";
      "}" ]%string.

(** A declaration file that exports a variable named [__proto__]. *)
Definition proto_members : MemberList := {|
  own_keys := [Classes; Functions; Variables; Enums];
  classes := [];
  functions := [];
  variables := ["__proto__"];
  enums := []
|}.

Definition proto_world : World :=
  mock_world ["index.d.ts"; "index.esm2017.js"] (fun _ => Js.VUndefined)
             proto_members
             (fun _ exp => Returns {| dependencies := []; size := 120 |}).

(** A package directory with a sub-module two levels down. *)
Definition deep_world : World := {|
  existsSync := fun _ => false;
  readdirSync := fun p =>
    if String.eqb p "/pkg" then Returns ["memory"; "README.md"]
    else if String.eqb p "/pkg/memory" then Returns ["deep"]
    else if String.eqb p "/pkg/memory/deep" then Returns []
    else Fails "ENOTDIR";
  lstatSync_isDirectory := fun p =>
    Returns (existsb (String.eqb p) ["/pkg/memory"; "/pkg/memory/deep"]);
  require := fun _ => Fails "MODULE_NOT_FOUND";
  resolve := fun p => p;
  basename := fun p => p;
  extractDeclarations := fun _ => Fails "unused";
  extractDependenciesAndSize := fun _ _ _ _ => Fails "unused";
  writeReportToDirectory := fun _ _ _ => Returns tt;
  writeReportToFile := fun _ _ => Returns tt;
  mapWorkspaceToPackages := fun _ => Returns ["/pkg"];
  projectRoot := "/repo"
|}.

Definition bare_executor : Executor := fun _ _ _ _ => ret tt.

(** [Timestamp] is listed as a class and as a function. *)
Definition dup_members : MemberList := {|
  own_keys := [Classes; Functions; Variables; Enums];
  classes := ["Timestamp"];
  functions := ["getApp"; "Timestamp"];
  variables := [];
  enums := []
|}.

(** An extractor whose answer tells the calls apart: the size is the
    number of events logged before the call. *)
Definition counting_answer (h : list Event) (exp : string) : reply ExportData :=
  Returns {| dependencies := [exp]; size := Z.of_nat (length h) |}.

(** The same lists in an object whose properties were created in the
    order functions, classes, variables, enums. *)
Definition dup_members_functions_first : MemberList := {|
  own_keys := [Functions; Classes; Variables; Enums];
  classes := ["Timestamp"];
  functions := ["getApp"; "Timestamp"];
  variables := [];
  enums := []
|}.

Definition dup_world : World :=
  mock_world ["index.d.ts"; "index.esm2017.js"] (fun _ => Js.VUndefined)
             dup_members counting_answer.

(** ** Notions used by the further properties *)

(** The extraction event of one symbol. *)
Definition extraction_of (jsFile : string) (map : gmap string string)
    (exp : string) : Event :=
  EvExtractDependenciesAndSize exp jsFile map.

(** The elements of [xs] in the order of their first occurrence, those
    of [seen] left out. *)
Fixpoint first_occurrences (seen xs : list string) : list string :=
  match xs with
  | [] => []
  | x :: xs' =>
      if existsb (String.eqb x) seen then first_occurrences seen xs'
      else x :: first_occurrences (seen ++ [x]) xs'
  end.

(** The error codes that [m] raises itself all satisfy [allowed]. *)
Definition raises_only {A} (allowed : ErrorCode -> Prop) (m : M A) : Prop :=
  forall log c, fst (m log) = Raise (JsError c) -> allowed c.

Definition no_write (ev : Event) : Prop := is_write ev = false.

(** The events of an analysis: the two extractors and the console log
    of the member list. *)
Definition analysis_event (ev : Event) : Prop :=
  match ev with
  | EvExtractDeclarations _
  | EvExtractDependenciesAndSize _ _ _
  | EvConsoleLogMembers _ => True
  | _ => False
  end.

(** An extractor that fails on the symbol [bad]. *)
Definition failing_answer (bad : string) (h : list Event) (exp : string)
  : reply ExportData :=
  if String.eqb exp bad then Fails "cannot extract"
  else Returns {| dependencies := []; size := Z.of_nat (length h) |}.

Definition three_members : MemberList := {|
  own_keys := [Classes; Functions; Variables; Enums];
  classes := ["Bar"];
  functions := ["foo"; "baz"];
  variables := ["Bar"; "VERSION"];
  enums := []
|}.

Definition failing_world : World :=
  mock_world ["index.d.ts"; "index.esm2017.js"] (fun _ => Js.VUndefined)
             three_members (failing_answer "baz").

Definition three_world : World :=
  mock_world ["index.d.ts"; "index.esm2017.js"] (fun _ => Js.VUndefined)
             three_members counting_answer.

(** The manifest of a module with both artifacts. *)
Definition full_manifest (key : string) : Js.Value :=
  if String.eqb key "typings" then Js.VString "index.d.ts"
  else if String.eqb key "esm2017" then Js.VString "index.esm2017.js"
  else if String.eqb key "name" then Js.VString "functions-exp"
  else Js.VUndefined.

Definition module_world : World :=
  mock_world ["/m/package.json"; "/m/index.d.ts"; "/m/index.esm2017.js"]
             full_manifest no_members counting_answer.

(** A module whose declaration file is missing on disk. *)
Definition broken_module_world : World :=
  mock_world ["/m/package.json"; "/m/index.esm2017.js"]
             full_manifest no_members counting_answer.

(** A directory whose manifest declares neither artifact. *)
Definition private_manifest (key : string) : Js.Value :=
  if String.eqb key "name" then Js.VString "@firebase/app-types-exp"
  else Js.VUndefined.

Definition private_world : World :=
  mock_world ["/m/package.json"] private_manifest no_members counting_answer.

(** [m] only adds to the log. *)
Definition appends {A} (m : M A) : Prop :=
  forall log, exists evs, snd (m log) = log ++ evs.

(** A workspace of two modules: the first declares typings without a
    bundle, the second has both artifacts and exports nothing. *)
Definition two_modules_manifest (path : string) (key : string) : Js.Value :=
  if String.eqb path "/ws/a/package.json"
  then (if String.eqb key "typings" then Js.VString "index.d.ts"
        else if String.eqb key "name" then Js.VString "@firebase/a-exp"
        else Js.VUndefined)
  else (if String.eqb key "typings" then Js.VString "index.d.ts"
        else if String.eqb key "esm2017" then Js.VString "index.esm2017.js"
        else if String.eqb key "name" then Js.VString "@firebase/b-exp"
        else Js.VUndefined).

Definition two_modules_world : World := {|
  existsSync := fun p =>
    existsb (String.eqb p)
      ["/ws/a/package.json"; "/ws/b/package.json";
       "/ws/b/index.d.ts"; "/ws/b/index.esm2017.js"];
  readdirSync := fun p =>
    if String.eqb p "/ws/a" then Returns ["package.json"]
    else if String.eqb p "/ws/b"
         then Returns ["package.json"; "index.d.ts"; "index.esm2017.js"]
         else Fails "ENOENT";
  lstatSync_isDirectory := fun _ => Returns false;
  require := fun p => Returns (two_modules_manifest p);
  resolve := fun p => p;
  basename := fun p =>
    if String.eqb p "@firebase/a-exp" then "a-exp"
    else if String.eqb p "@firebase/b-exp" then "b-exp" else p;
  extractDeclarations := fun _ => Returns no_members;
  extractDependenciesAndSize := fun _ _ _ _ => Fails "unused";
  writeReportToDirectory := fun _ _ _ => Returns tt;
  writeReportToFile := fun _ _ => Returns tt;
  mapWorkspaceToPackages := fun _ => Returns ["/ws/a"; "/ws/b"];
  projectRoot := "/ws"
|}.

Definition argv_batch (modules : option (list string)) (out : option string)
    (upload : bool) : Argv := {|
  inputModule := modules;
  inputDtsFile := None;
  inputBundleFile := None;
  ci := upload;
  output := out
|}.

Definition argv_adhoc (upload : bool) : Argv := {|
  inputModule := None;
  inputDtsFile := Some "/ws/b/index.d.ts";
  inputBundleFile := Some "/ws/b/index.esm2017.js";
  ci := upload;
  output := Some "report.json"
|}.

(** [s] is listed under the key [c] of [api]. *)
Definition listed (api : MemberList) (s : string) (c : Category) : bool :=
  existsb (String.eqb s) (member api c).


(** * Properties *)

(** ** The text of a report *)

Lemma append_assoc (a b c : string) :
  ((a ++ b) ++ c)%string = (a ++ (b ++ c))%string.
Proof.
  induction a as [| x a IH]; [reflexivity |].
  change (String x ((a ++ b) ++ c)%string = String x (a ++ (b ++ c))%string).
  rewrite IH. reflexivity.
Qed.

Lemma entry_text_serialize (k : string) (d : ExportData) :
  (JSON.quote k ++ ":" ++ " "
   ++ JSON.serialize "    " "    " (json_of_ExportData d))%string
  = entry_text (k, d).
Proof.
  unfold entry_text, json_of_ExportData, dependencies_text, size_text.
  cbn [fst snd JSON.serialize map].
  rewrite map_map. cbn [JSON.serialize].
  change (map (fun x : string => JSON.quote x) (dependencies d))
    with (map JSON.quote (dependencies d)).
  destruct (dependencies d) as [| x deps];
    cbn [map JSON.wrap JSON.join String.eqb Ascii.eqb Bool.eqb];
    rewrite ?append_assoc; cbv [String.append JSON.newline]; reflexivity.
Qed.

(** [JSON.stringify(result, null, 4)] is the text written out. *)
Lemma stringify_report (o : Obj.t ExportData) :
  JSON.stringify (json_of_report o) 4 = report_text o.
Proof.
  unfold JSON.stringify, json_of_report, report_text.
  cbn [Nat.min JSON.spaces JSON.serialize].
  rewrite map_map.
  assert (Hmap :
            map (fun x : string * ExportData =>
                   let '(k, v) := let '(k, d) := x in (k, json_of_ExportData d) in
                   (JSON.quote k ++ ":"
                    ++ (if String.eqb "    " EmptyString then EmptyString else " ")
                    ++ JSON.serialize "    " (EmptyString ++ "    ") v)%string) o
            = map entry_text o).
  { apply map_ext. intros [k d]. apply (entry_text_serialize k d). }
  rewrite Hmap.
  destruct o as [| e o]; [reflexivity |].
  cbn [map JSON.wrap String.eqb Ascii.eqb Bool.eqb].
  rewrite ?append_assoc. cbv [String.append JSON.newline]. reflexivity.
Qed.

(** ** Laws of the monad *)

Lemma emitted_unchanged {A} (m : M A) (log : list Event) :
  snd (m log) = log -> emitted m log = [].
Proof.
  intros H. unfold emitted. rewrite H. apply skipn_all.
Qed.

Lemma foreign_only_ret {A} (a : A) : foreign_only (ret a).
Proof. intros log c. discriminate. Qed.

Lemma foreign_only_lift {A} (r : reply A) : foreign_only (lift r).
Proof. intros log c. unfold lift. destruct r; discriminate. Qed.

Lemma foreign_only_tell (ev : Event) : foreign_only (tell ev).
Proof. intros log c. discriminate. Qed.

Lemma foreign_only_history : foreign_only history.
Proof. intros log c. discriminate. Qed.

Lemma foreign_only_bind {A B} (m : M A) (k : A -> M B) :
  foreign_only m -> (forall a, foreign_only (k a)) -> foreign_only (bind m k).
Proof.
  intros Hm Hk log c. unfold bind.
  destruct (m log) as [[a | e] log'] eqn:E.
  - apply Hk.
  - specialize (Hm log c). rewrite E in Hm. simpl in *. congruence.
Qed.

Lemma foreign_only_for_of_acc {A S} (xs : list A) (body : A -> S -> M S) :
  (forall x acc, foreign_only (body x acc)) ->
  forall acc, foreign_only (for_of_acc xs body acc).
Proof.
  intros Hbody. induction xs as [| x xs IH]; intros acc; simpl.
  - apply foreign_only_ret.
  - apply foreign_only_bind; auto.
Qed.

Ltac foreign_only_tac :=
  repeat first
    [ apply foreign_only_ret
    | apply foreign_only_lift
    | apply foreign_only_tell
    | apply foreign_only_history
    | apply foreign_only_for_of_acc; intros
    | apply foreign_only_bind; [ | intros ] ].

Section AnalysisFacts.

Variable w : World.

Lemma foreign_only_buildJsonReport api jsFile map :
  foreign_only (buildJsonReport w api jsFile map).
Proof.
  unfold buildJsonReport, buildJsonReport_result, record_export,
    call_extractDependenciesAndSize.
  foreign_only_tac.
Qed.

End AnalysisFacts.

(** ** Property assignment on objects *)

Section ObjFacts.

Context {V : Type}.
Implicit Types (o : Obj.t V) (k : string) (v : V).

Lemma Obj_get_None k o : Obj.get k o = None <-> ~ In k (Obj.keys o).
Proof.
  induction o as [| [k' v'] o IH]; simpl.
  - tauto.
  - destruct (String.eqb k k') eqn:E.
    + apply String.eqb_eq in E. subst. split; [discriminate | tauto].
    + apply String.eqb_neq in E. rewrite IH. intuition congruence.
Qed.

Lemma Obj_has_true k o : Obj.has k o = true <-> In k (Obj.keys o).
Proof.
  unfold Obj.has. destruct (Obj.get k o) eqn:E.
  - split; [intros _ | reflexivity].
    destruct (in_dec string_dec k (Obj.keys o)) as [Hin | Hout]; [exact Hin |].
    apply Obj_get_None in Hout. congruence.
  - apply Obj_get_None in E. split; [discriminate | tauto].
Qed.

Lemma Obj_has_false k o : Obj.has k o = false <-> ~ In k (Obj.keys o).
Proof.
  rewrite <- Obj_has_true. destruct (Obj.has k o); intuition congruence.
Qed.

Lemma Obj_keys_replace k v o : Obj.keys (Obj.replace k v o) = Obj.keys o.
Proof.
  induction o as [| [k' v'] o IH]; simpl; [reflexivity |].
  destruct (String.eqb k k') eqn:E; simpl.
  - apply String.eqb_eq in E. subst. reflexivity.
  - f_equal. exact IH.
Qed.

Lemma Obj_keys_insert_index n k v o :
  Permutation (k :: Obj.keys o) (Obj.keys (Obj.insert_index n k v o)).
Proof.
  induction o as [| [k' v'] o IH]; simpl; [reflexivity |].
  destruct (Obj.array_index k') as [n' |]; [| reflexivity].
  destruct (n' <? n)%N; [| reflexivity].
  simpl. rewrite perm_swap. constructor. exact IH.
Qed.

(** A new key is added once; an existing key keeps its place. *)
Lemma Obj_set_proto v o : Obj.set "__proto__" v o = o.
Proof. reflexivity. Qed.

Lemma Obj_set_plain_key k v o :
  k <> "__proto__" ->
  Obj.set k v o
  = if Obj.has k o then Obj.replace k v o
    else match Obj.array_index k with
         | Some n => Obj.insert_index n k v o
         | None => o ++ [(k, v)]
         end.
Proof.
  intros Hk. unfold Obj.set. apply String.eqb_neq in Hk. rewrite Hk. reflexivity.
Qed.

Lemma Obj_keys_set_new k v o :
  k <> "__proto__" ->
  ~ In k (Obj.keys o) -> Permutation (k :: Obj.keys o) (Obj.keys (Obj.set k v o)).
Proof.
  intros Hk Hnew. rewrite Obj_set_plain_key by exact Hk.
  apply Obj_has_false in Hnew. rewrite Hnew.
  destruct (Obj.array_index k).
  - apply Obj_keys_insert_index.
  - unfold Obj.keys. rewrite map_app. simpl. apply Permutation_cons_append.
Qed.

Lemma Obj_keys_set_old k v o :
  In k (Obj.keys o) -> Obj.keys (Obj.set k v o) = Obj.keys o.
Proof.
  intros Hold. unfold Obj.set.
  destruct (String.eqb k "__proto__"); [reflexivity |].
  apply Obj_has_true in Hold. rewrite Hold. apply Obj_keys_replace.
Qed.

Lemma Obj_In_keys_set k v o x :
  In x (Obj.keys (Obj.set k v o))
  <-> (x = k /\ k <> "__proto__") \/ In x (Obj.keys o).
Proof.
  destruct (string_dec k "__proto__") as [-> | Hk].
  { rewrite Obj_set_proto. intuition congruence. }
  destruct (in_dec string_dec k (Obj.keys o)) as [Hold | Hnew].
  - rewrite Obj_keys_set_old by exact Hold. intuition congruence.
  - split.
    + intros H.
      apply (Permutation_in _ (Permutation_sym (Obj_keys_set_new k v o Hk Hnew))) in H.
      simpl in H. intuition congruence.
    + intros H. apply (Permutation_in _ (Obj_keys_set_new k v o Hk Hnew)).
      simpl. intuition congruence.
Qed.

Lemma Obj_NoDup_keys_set k v o :
  List.NoDup (Obj.keys o) -> List.NoDup (Obj.keys (Obj.set k v o)).
Proof.
  intros Hnd.
  destruct (string_dec k "__proto__") as [-> | Hk]; [exact Hnd |].
  destruct (in_dec string_dec k (Obj.keys o)) as [Hold | Hnew].
  - rewrite Obj_keys_set_old by exact Hold. exact Hnd.
  - apply (Permutation_NoDup (Obj_keys_set_new k v o Hk Hnew)).
    constructor; assumption.
Qed.

Lemma Obj_get_replace_eq k v o :
  In k (Obj.keys o) -> Obj.get k (Obj.replace k v o) = Some v.
Proof.
  induction o as [| [k' v'] o IH]; simpl; [tauto |].
  intros Hin. destruct (String.eqb k k') eqn:E; simpl.
  - rewrite String.eqb_refl. reflexivity.
  - rewrite E. apply IH. apply String.eqb_neq in E. intuition congruence.
Qed.

Lemma Obj_get_replace_neq k v o x :
  x <> k -> Obj.get x (Obj.replace k v o) = Obj.get x o.
Proof.
  intros Hneq. induction o as [| [k' v'] o IH]; simpl; [reflexivity |].
  destruct (String.eqb k k') eqn:E; simpl.
  - apply String.eqb_eq in E. subst k'.
    apply String.eqb_neq in Hneq. rewrite Hneq. reflexivity.
  - rewrite IH. reflexivity.
Qed.

Lemma Obj_get_insert_index_eq n k v o :
  ~ In k (Obj.keys o) -> Obj.get k (Obj.insert_index n k v o) = Some v.
Proof.
  induction o as [| [k' v'] o IH]; simpl; intros Hnew.
  - rewrite String.eqb_refl. reflexivity.
  - destruct (Obj.array_index k') as [n' |]; simpl.
    + destruct (n' <? n)%N; simpl.
      * assert (E : String.eqb k k' = false)
          by (apply String.eqb_neq; intuition congruence).
        rewrite E. apply IH. tauto.
      * rewrite String.eqb_refl. reflexivity.
    + rewrite String.eqb_refl. reflexivity.
Qed.

Lemma Obj_get_insert_index_neq n k v o x :
  x <> k -> Obj.get x (Obj.insert_index n k v o) = Obj.get x o.
Proof.
  intros Hneq. apply String.eqb_neq in Hneq.
  induction o as [| [k' v'] o IH]; simpl.
  - rewrite Hneq. reflexivity.
  - destruct (Obj.array_index k') as [n' |]; simpl.
    + destruct (n' <? n)%N; simpl.
      * rewrite IH. reflexivity.
      * rewrite Hneq. reflexivity.
    + rewrite Hneq. reflexivity.
Qed.

Lemma Obj_get_app k o o' :
  Obj.get k (o ++ o') =
  match Obj.get k o with Some v => Some v | None => Obj.get k o' end.
Proof.
  induction o as [| [k' v'] o IH]; simpl; [reflexivity |].
  destruct (String.eqb k k'); [reflexivity | exact IH].
Qed.

(** Reading back the property that was just assigned. *)
Lemma Obj_get_set_eq k v o :
  k <> "__proto__" -> Obj.get k (Obj.set k v o) = Some v.
Proof.
  intros Hk. rewrite Obj_set_plain_key by exact Hk.
  destruct (Obj.has k o) eqn:E.
  - apply Obj_get_replace_eq. apply Obj_has_true. exact E.
  - apply Obj_has_false in E. destruct (Obj.array_index k).
    + apply Obj_get_insert_index_eq. exact E.
    + rewrite Obj_get_app. apply Obj_get_None in E. rewrite E.
      simpl. rewrite String.eqb_refl. reflexivity.
Qed.

(** The other properties are not touched. *)
Lemma Obj_get_set_neq k v o x : x <> k -> Obj.get x (Obj.set k v o) = Obj.get x o.
Proof.
  intros Hneq. unfold Obj.set.
  destruct (String.eqb k "__proto__"); [reflexivity |].
  destruct (Obj.has k o).
  - apply Obj_get_replace_neq. exact Hneq.
  - destruct (Obj.array_index k).
    + apply Obj_get_insert_index_neq. exact Hneq.
    + rewrite Obj_get_app. simpl.
      apply String.eqb_neq in Hneq. rewrite Hneq.
      destruct (Obj.get x o); reflexivity.
Qed.

End ObjFacts.

(** ** Error paths of [generateReport], [generateReportForModule], [main] *)

(** C7. [generateReport] raises [INPUT_FILE_DOES_NOT_EXIST] exactly when
    one of the two resolved paths does not exist, and it then returns
    the log as it received it: neither [extractDeclarations] nor
    [extractDependenciesAndSize] has been called. *)
Theorem generateReport_missing_input (w : World) (dtsFile bundleFile : string)
    (log : list Event) :
  (fst (generateReport w dtsFile bundleFile log)
     = Raise (JsError INPUT_FILE_DOES_NOT_EXIST)
   <-> (existsSync w (resolve w dtsFile) = false
        \/ existsSync w (resolve w bundleFile) = false))
  /\ (existsSync w (resolve w dtsFile) = false
      \/ existsSync w (resolve w bundleFile) = false ->
      emitted (generateReport w dtsFile bundleFile) log = []
      /\ forall ev, In ev (emitted (generateReport w dtsFile bundleFile) log) ->
                    is_extraction ev = false).
Proof.
  unfold generateReport.
  destruct (existsSync w (resolve w dtsFile)) eqn:Ed;
    destruct (existsSync w (resolve w bundleFile)) eqn:Eb; simpl.
  - split.
    + split.
      * intros H. exfalso. revert H.
        apply (foreign_only_bind (call_extractDeclarations w (resolve w dtsFile))).
        -- unfold call_extractDeclarations. foreign_only_tac.
        -- intros api. apply foreign_only_bind; [foreign_only_tac |].
           intros _. apply foreign_only_buildJsonReport.
      * intros [H | H]; discriminate.
    + intros [H | H]; discriminate.
  - split; [split; auto |]. intros _.
    rewrite emitted_unchanged by reflexivity. split; [reflexivity | intros ev []].
  - split; [split; auto |]. intros _.
    rewrite emitted_unchanged by reflexivity. split; [reflexivity | intros ev []].
  - split; [split; auto |]. intros _.
    rewrite emitted_unchanged by reflexivity. split; [reflexivity | intros ev []].
Qed.

(** C3. When the manifest of a directory has a truthy [typings] entry
    and no (truthy) [esm2017] entry, [generateReportForModule] raises
    [BUNDLE_FILE_DOES_NOT_EXIST] and leaves the log as it found it: the
    error comes before any call of [extractDependenciesAndSize] (or of
    any other collaborator with an effect). *)
Theorem generateReportForModule_bundle_missing (w : World) (path : string)
    (outputDirectory : option string) (writeFiles uploadToCI : bool)
    (log : list Event) (manifest : string -> Js.Value) :
  existsSync w (path ++ "/package.json") = true ->
  require w (path ++ "/package.json") = Returns manifest ->
  Js.truthy (manifest TYPINGS) = true ->
  Js.truthy (manifest BUNDLE) = false ->
  fst (generateReportForModule w path outputDirectory writeFiles uploadToCI log)
    = Raise (JsError BUNDLE_FILE_DOES_NOT_EXIST)
  /\ emitted (generateReportForModule w path outputDirectory writeFiles uploadToCI) log
     = [].
Proof.
  intros Hexists Hrequire Htypings Hbundle.
  assert (Hrun : generateReportForModule w path outputDirectory writeFiles uploadToCI log
                 = (Raise (JsError BUNDLE_FILE_DOES_NOT_EXIST), log)).
  { unfold generateReportForModule, bind, lift.
    rewrite Hexists, Hrequire. simpl. rewrite Htypings, Hbundle. reflexivity. }
  split.
  - rewrite Hrun. reflexivity.
  - apply emitted_unchanged. rewrite Hrun. reflexivity.
Qed.

Lemma generateReportForModule_bundle_missing_witness :
  fst (generateReportForModule typings_only_world "/m" (Some "out") true false [])
    = Raise (JsError BUNDLE_FILE_DOES_NOT_EXIST)
  /\ emitted (generateReportForModule typings_only_world "/m" (Some "out") true false) []
     = [].
Proof.
  apply (generateReportForModule_bundle_missing typings_only_world "/m" (Some "out")
           true false [] typings_only_manifest); reflexivity.
Defined.

(** C6. With neither [--output] nor [--ci], [main] raises
    [REPORT_REDIRECTION_ERROR] and adds nothing to the log: neither
    [writeReportToFile] nor [writeReportToDirectory] is called. *)
Theorem main_no_redirection (w : World) (argv : Argv) (log : list Event) :
  Js.truthy_opt (output argv) = false ->
  ci argv = false ->
  fst (main w argv log) = Raise (JsError REPORT_REDIRECTION_ERROR)
  /\ emitted (main w argv) log = []
  /\ forall ev, In ev (snd (main w argv log)) -> is_write ev = true -> In ev log.
Proof.
  intros Hout Hci.
  assert (Hrun : main w argv log = (Raise (JsError REPORT_REDIRECTION_ERROR), log)).
  { unfold main. rewrite Hout, Hci. reflexivity. }
  rewrite Hrun. repeat split.
  - apply emitted_unchanged. rewrite Hrun. reflexivity.
  - simpl. auto.
Qed.

Lemma main_no_redirection_witness :
  fst (main typings_only_world argv_modules_only [])
    = Raise (JsError REPORT_REDIRECTION_ERROR)
  /\ emitted (main typings_only_world argv_modules_only) [] = []
  /\ forall ev, In ev (snd (main typings_only_world argv_modules_only [])) ->
                is_write ev = true -> In ev [].
Proof.
  apply (main_no_redirection typings_only_world argv_modules_only []); reflexivity.
Defined.

(** C9. With [--inputDtsFile], [--inputBundleFile] and [--ci] but no
    [--output], [main] raises [INVALID_FLAG_COMBINATION] without
    running the adhoc analysis: nothing is added to the log. *)
Theorem main_adhoc_requires_output (w : World) (argv : Argv) (log : list Event) :
  Js.truthy_opt (inputDtsFile argv) = true ->
  Js.truthy_opt (inputBundleFile argv) = true ->
  ci argv = true ->
  Js.truthy_opt (output argv) = false ->
  fst (main w argv log) = Raise (JsError INVALID_FLAG_COMBINATION)
  /\ emitted (main w argv) log = [].
Proof.
  intros Hdts Hbundle Hci Hout.
  assert (Hrun : main w argv log = (Raise (JsError INVALID_FLAG_COMBINATION), log)).
  { unfold main. rewrite Hdts, Hbundle, Hci, Hout. reflexivity. }
  rewrite Hrun. split; [reflexivity |].
  apply emitted_unchanged. rewrite Hrun. reflexivity.
Qed.

Lemma main_adhoc_requires_output_witness :
  fst (main typings_only_world argv_adhoc_ci [])
    = Raise (JsError INVALID_FLAG_COMBINATION)
  /\ emitted (main typings_only_world argv_adhoc_ci) [] = [].
Proof.
  apply (main_adhoc_requires_output typings_only_world argv_adhoc_ci []); reflexivity.
Defined.

(** C5 does not hold as stated: the check of the output redirection
    comes first.  With [--inputDtsFile] alone, [main] raises
    [REPORT_REDIRECTION_ERROR], not [INVALID_FLAG_COMBINATION]. *)
Lemma main_only_inputDtsFile_counterexample :
  Js.truthy_opt (inputDtsFile argv_only_inputDtsFile) = true
  /\ Js.truthy_opt (inputBundleFile argv_only_inputDtsFile) = false
  /\ fst (main typings_only_world argv_only_inputDtsFile [])
     = Raise (JsError REPORT_REDIRECTION_ERROR)
  /\ fst (main typings_only_world argv_only_inputDtsFile [])
     <> Raise (JsError INVALID_FLAG_COMBINATION).
Proof.
  repeat split; try reflexivity. vm_compute. discriminate.
Qed.

(** C5, amended.  With [--inputDtsFile] set, [--inputBundleFile] not
    set, and an output redirection ([--output] or [--ci]), [main]
    raises [INVALID_FLAG_COMBINATION]. *)
Theorem main_inputDtsFile_without_bundle (w : World) (argv : Argv) (log : list Event) :
  Js.truthy_opt (inputDtsFile argv) = true ->
  Js.truthy_opt (inputBundleFile argv) = false ->
  Js.truthy_opt (output argv) = true \/ ci argv = true ->
  fst (main w argv log) = Raise (JsError INVALID_FLAG_COMBINATION)
  /\ emitted (main w argv) log = [].
Proof.
  intros Hdts Hbundle Hredirect.
  assert (Hrun : main w argv log = (Raise (JsError INVALID_FLAG_COMBINATION), log)).
  { unfold main. rewrite Hdts, Hbundle.
    destruct Hredirect as [H | H]; rewrite H; simpl.
    - reflexivity.
    - rewrite andb_false_r. reflexivity. }
  rewrite Hrun. split; [reflexivity |].
  apply emitted_unchanged. rewrite Hrun. reflexivity.
Qed.

Lemma main_inputDtsFile_without_bundle_witness :
  fst (main typings_only_world argv_inputDtsFile_output [])
    = Raise (JsError INVALID_FLAG_COMBINATION)
  /\ emitted (main typings_only_world argv_inputDtsFile_output) [] = [].
Proof.
  apply (main_inputDtsFile_without_bundle typings_only_world argv_inputDtsFile_output []).
  - reflexivity.
  - reflexivity.
  - left. reflexivity.
Defined.

(** ** The report of [buildJsonReport] *)

Lemma for_of_acc_app {A S} (xs ys : list A) (body : A -> S -> M S) (acc : S)
    (log : list Event) :
  for_of_acc (xs ++ ys) body acc log
  = bind (for_of_acc xs body acc) (fun acc' => for_of_acc ys body acc') log.
Proof.
  revert acc log. induction xs as [| x xs IH]; intros acc log; simpl.
  - reflexivity.
  - unfold bind in *. destruct (body x acc log) as [[acc' | e] log']; [| reflexivity].
    apply IH.
Qed.

Section ReportFacts.

Variable w : World.
Variables (jsFile : string) (map : gmap string string).

Let step := record_export w jsFile map.

Lemma record_export_run exp acc log :
  step exp acc log =
  match extractDependenciesAndSize w log exp jsFile map with
  | Returns d =>
      (Ok (Obj.set exp d acc), log ++ [EvExtractDependenciesAndSize exp jsFile map])
  | Fails what =>
      (Raise (Foreign what), log ++ [EvExtractDependenciesAndSize exp jsFile map])
  end.
Proof.
  unfold step, record_export, call_extractDependenciesAndSize, bind, history, tell, lift, ret.
  destruct (extractDependenciesAndSize w log exp jsFile map); reflexivity.
Qed.

(** The four loops are one loop over [symbols]. *)
Lemma buildJsonReport_result_loop api log :
  buildJsonReport_result w api jsFile map log
  = for_of_acc (symbols api) step Obj.empty log.
Proof.
  unfold buildJsonReport_result, symbols. fold step.
  rewrite for_of_acc_app. unfold bind at 1 5.
  destruct (for_of_acc (classes api) step Obj.empty log) as [[r1 | e] l1]; [| reflexivity].
  rewrite for_of_acc_app. unfold bind at 1 4.
  destruct (for_of_acc (functions api) step r1 l1) as [[r2 | e] l2]; [| reflexivity].
  rewrite for_of_acc_app. unfold bind at 1 3.
  destruct (for_of_acc (variables api) step r2 l2) as [[r3 | e] l3]; [| reflexivity].
  unfold bind, ret.
  destruct (for_of_acc (enums api) step r3 l3) as [[r4 | e] l4]; reflexivity.
Qed.

(** When the extractor answers for every symbol, the loop completes. *)
Lemma record_loop_total xs :
  (forall h exp, In exp xs ->
     exists d, extractDependenciesAndSize w h exp jsFile map = Returns d) ->
  forall acc log, exists result log', for_of_acc xs step acc log = (Ok result, log').
Proof.
  induction xs as [| x xs IH]; intros Hok acc log; simpl.
  - eexists _, _. reflexivity.
  - unfold bind. rewrite record_export_run.
    destruct (Hok log x (or_introl eq_refl)) as [d Hd]. rewrite Hd.
    apply IH. intros h exp Hin. apply Hok. right. exact Hin.
Qed.

Lemma record_loop_keys xs : forall acc log result log',
  for_of_acc xs step acc log = (Ok result, log') ->
  (List.NoDup (Obj.keys acc) -> List.NoDup (Obj.keys result))
  /\ forall k, In k (Obj.keys result)
               <-> In k (Obj.keys acc) \/ (In k xs /\ k <> "__proto__").
Proof.
  induction xs as [| x xs IH]; intros acc log result log'; simpl.
  - unfold ret. intros [= <- <-]. split; [auto | intros k; tauto].
  - unfold bind. rewrite record_export_run.
    destruct (extractDependenciesAndSize w log x jsFile map) as [d | what];
      [| discriminate].
    intros Hrun. apply IH in Hrun. destruct Hrun as [Hnd Hkeys]. split.
    + intros H. apply Hnd. apply Obj_NoDup_keys_set. exact H.
    + intros k. rewrite Hkeys, Obj_In_keys_set. intuition congruence.
Qed.

(** A symbol that the loop does not visit keeps its entry. *)
Lemma record_loop_get_other xs s : forall acc log result log',
  for_of_acc xs step acc log = (Ok result, log') ->
  ~ In s xs -> Obj.get s result = Obj.get s acc.
Proof.
  induction xs as [| x xs IH]; intros acc log result log'; simpl.
  - unfold ret. intros [= <- <-] _. reflexivity.
  - unfold bind. rewrite record_export_run.
    destruct (extractDependenciesAndSize w log x jsFile map) as [d | what];
      [| discriminate].
    intros Hrun Hout. rewrite (IH _ _ _ _ Hrun) by tauto.
    apply Obj_get_set_neq. intuition congruence.
Qed.

End ReportFacts.

(** C1 fails on a symbol named [__proto__].  The declaration file
    exports the variable [__proto__], both files exist and the
    extractor answers (it is called for the symbol), yet the report is
    the empty object: the assignment [result[exp] = ...] has created no
    property, and the symbol is not a key of the report. *)
Theorem generateReport_drops_proto_symbol :
  In "__proto__" (symbols proto_members)
  /\ generateReport proto_world "index.d.ts" "index.esm2017.js" []
     = (Ok "{}",
        [EvExtractDeclarations "index.d.ts"; EvConsoleLogMembers proto_members;
         EvExtractDependenciesAndSize "__proto__" "index.esm2017.js"
           (buildMap proto_members)])
  /\ fst (buildJsonReport_result proto_world proto_members "index.esm2017.js"
            (buildMap proto_members) [])
     = Ok Obj.empty.
Proof. repeat split. left. reflexivity. Qed.

(** X20. For a valid pair of files (both exist, the declaration
    extractor answers [api], the per-symbol extractor answers for every
    symbol of [api]), [generateReport] returns the report text of the
    object [result] that [buildJsonReport] has filled -- one member per
    key, written out by [report_text] -- and the keys of [result] are
    the symbol names of [api] other than [__proto__], each once, and
    nothing else. *)
Theorem generateReport_keys (w : World) (dtsFile bundleFile : string)
    (log : list Event) (api : MemberList) :
  existsSync w (resolve w dtsFile) = true ->
  existsSync w (resolve w bundleFile) = true ->
  extractDeclarations w (resolve w dtsFile) = Returns api ->
  (forall h exp, In exp (symbols api) ->
     exists d, extractDependenciesAndSize w h exp bundleFile (buildMap api) = Returns d) ->
  exists result,
    fst (generateReport w dtsFile bundleFile log) = Ok (report_text result)
    /\ fst (buildJsonReport_result w api bundleFile (buildMap api)
              (log ++ [EvExtractDeclarations (resolve w dtsFile)]
                   ++ [EvConsoleLogMembers api]))
       = Ok result
    /\ List.NoDup (Obj.keys result)
    /\ forall k, In k (Obj.keys result)
                 <-> In k (symbols api) /\ k <> "__proto__".
Proof.
  intros Hdts Hbundle Hapi Hok.
  set (log1 := log ++ [EvExtractDeclarations (resolve w dtsFile)]
                   ++ [EvConsoleLogMembers api]).
  destruct (record_loop_total w bundleFile (buildMap api) (symbols api) Hok
              Obj.empty log1) as (result & log' & Hloop).
  exists result.
  assert (Hres : buildJsonReport_result w api bundleFile (buildMap api) log1
                 = (Ok result, log')).
  { rewrite buildJsonReport_result_loop. exact Hloop. }
  split; [| split; [| split]].
  - unfold generateReport. rewrite Hdts, Hbundle. simpl.
    unfold call_extractDeclarations, bind at 1 2, tell, lift.
    rewrite Hapi. unfold bind at 1, tell.
    replace ((log ++ [EvExtractDeclarations (resolve w dtsFile)])
               ++ [EvConsoleLogMembers api]) with log1
      by (unfold log1; rewrite app_assoc; reflexivity).
    unfold buildJsonReport, bind. rewrite Hres. simpl.
    rewrite stringify_report. reflexivity.
  - rewrite Hres. reflexivity.
  - apply (record_loop_keys _ _ _ _ _ _ _ _ Hloop). constructor.
  - intros k. destruct (record_loop_keys _ _ _ _ _ _ _ _ Hloop) as [_ Hkeys].
    rewrite Hkeys. simpl. tauto.
Qed.

Lemma generateReport_keys_witness :
  exists result,
    fst (generateReport foo_Bar_world "index.d.ts" "index.esm2017.js" [])
      = Ok (report_text result)
    /\ fst (buildJsonReport_result foo_Bar_world
              (foo_Bar_members [Classes; Functions; Variables; Enums])
              "index.esm2017.js"
              (buildMap (foo_Bar_members [Classes; Functions; Variables; Enums]))
              ([] ++ [EvExtractDeclarations "index.d.ts"]
                  ++ [EvConsoleLogMembers
                        (foo_Bar_members [Classes; Functions; Variables; Enums])]))
       = Ok result
    /\ List.NoDup (Obj.keys result)
    /\ forall k, In k (Obj.keys result)
                 <-> In k ["Bar"; "foo"] /\ k <> "__proto__".
Proof.
  apply (generateReport_keys foo_Bar_world "index.d.ts" "index.esm2017.js" []
           (foo_Bar_members [Classes; Functions; Variables; Enums])).
  - reflexivity.
  - reflexivity.
  - reflexivity.
  - intros h exp Hin. simpl in Hin.
    destruct Hin as [<- | [<- | []]]; eexists; reflexivity.
Defined.

(** C2. With the class [Bar] and the function [foo], an extractor that
    answers (no dependency, 10) for [foo] and ([foo], 25) for [Bar],
    [buildJsonReport] returns the text [foo_Bar_report]: key [Bar]
    before key [foo], indented by four spaces per level. *)
Theorem buildJsonReport_foo_Bar (w : World) (keys : list Category)
    (jsFile : string) (map : gmap string string) (log : list Event) :
  (forall h, extractDependenciesAndSize w h "foo" jsFile map = Returns foo_data) ->
  (forall h, extractDependenciesAndSize w h "Bar" jsFile map = Returns Bar_data) ->
  fst (buildJsonReport w (foo_Bar_members keys) jsFile map log) = Ok foo_Bar_report
  /\ exists result,
       fst (buildJsonReport_result w (foo_Bar_members keys) jsFile map log) = Ok result
       /\ Obj.keys result = ["Bar"; "foo"].
Proof.
  intros Hfoo HBar.
  assert (Hres : buildJsonReport_result w (foo_Bar_members keys) jsFile map log
                 = (Ok [("Bar", Bar_data); ("foo", foo_data)],
                    log ++ [EvExtractDependenciesAndSize "Bar" jsFile map]
                        ++ [EvExtractDependenciesAndSize "foo" jsFile map])).
  { rewrite buildJsonReport_result_loop. unfold symbols. simpl.
    unfold bind. rewrite record_export_run, HBar.
    rewrite record_export_run, Hfoo. unfold ret.
    rewrite <- app_assoc. reflexivity. }
  split.
  - unfold buildJsonReport, bind. rewrite Hres. reflexivity.
  - eexists. rewrite Hres. split; reflexivity.
Qed.

Lemma buildJsonReport_foo_Bar_witness :
  fst (buildJsonReport foo_Bar_world
         (foo_Bar_members [Classes; Functions; Variables; Enums])
         "index.esm2017.js" ∅ [])
    = Ok foo_Bar_report
  /\ exists result,
       fst (buildJsonReport_result foo_Bar_world
              (foo_Bar_members [Classes; Functions; Variables; Enums])
              "index.esm2017.js" ∅ [])
         = Ok result
       /\ Obj.keys result = ["Bar"; "foo"].
Proof.
  apply (buildJsonReport_foo_Bar foo_Bar_world [Classes; Functions; Variables; Enums]
           "index.esm2017.js" ∅ []); intros h; reflexivity.
Defined.

(** ** The depth limit of [traverseDirs] *)

Lemma emits_ret {A} P (a : A) : emits P (ret a).
Proof. intros log. exists []. split; [symmetry; apply app_nil_r | constructor]. Qed.

Lemma emits_lift {A} P (r : reply A) : emits P (lift r).
Proof.
  intros log. exists []. unfold lift.
  destruct r; (split; [symmetry; apply app_nil_r | constructor]).
Qed.

Lemma emits_bind_lift {A B} P (r : reply A) (k : A -> M B) :
  (forall a, r = Returns a -> emits P (k a)) -> emits P (bind (lift r) k).
Proof.
  intros Hk log. unfold bind, lift. destruct r as [a | what].
  - apply Hk. reflexivity.
  - exists []. split; [symmetry; apply app_nil_r | constructor].
Qed.

Lemma emits_tell P ev : P ev -> emits P (tell ev).
Proof. intros H log. exists [ev]. split; [reflexivity | auto]. Qed.

Lemma emits_bind {A B} P (m : M A) (k : A -> M B) :
  emits P m -> (forall a, emits P (k a)) -> emits P (bind m k).
Proof.
  intros Hm Hk log. unfold bind.
  destruct (Hm log) as (evs & E & HP).
  destruct (m log) as [[a | e] log']; simpl in E; subst log'.
  - destruct (Hk a (log ++ evs)) as (evs' & E' & HP').
    exists (evs ++ evs'). rewrite E', app_assoc. split; [reflexivity |].
    apply Forall_app; auto.
  - exists evs. auto.
Qed.

Lemma emits_for_of {A} P (xs : list A) (body : A -> M unit) :
  (forall x, In x xs -> emits P (body x)) -> emits P (for_of xs body).
Proof.
  induction xs as [| x xs IH]; intros H; simpl.
  - apply emits_ret.
  - apply emits_bind.
    + apply H. left. reflexivity.
    + intros _. apply IH. intros y Hy. apply H. right. exact Hy.
Qed.

Lemma emits_weaken {A} (P Q : Event -> Prop) (m : M A) :
  (forall ev, P ev -> Q ev) -> emits P m -> emits Q m.
Proof.
  intros HPQ Hm log. destruct (Hm log) as (evs & E & HP).
  exists evs. split; [exact E |]. eapply Forall_impl; eauto.
Qed.

Lemma emits_emitted {A} P (m : M A) log :
  emits P m -> Forall P (emitted m log).
Proof.
  intros Hm. destruct (Hm log) as (evs & E & HP).
  unfold emitted. rewrite E, skipn_app, skipn_all, Nat.sub_diag. exact HP.
Qed.

Lemma emits_history P : emits P history.
Proof. intros log. exists []. split; [symmetry; apply app_nil_r | constructor]. Qed.

Lemma emits_throw {A} P e : emits P (@throw A e).
Proof. intros log. exists []. split; [symmetry; apply app_nil_r | constructor]. Qed.

Lemma emits_for_of_acc {A S} P (xs : list A) (body : A -> S -> M S) :
  (forall x acc, emits P (body x acc)) ->
  forall acc, emits P (for_of_acc xs body acc).
Proof.
  intros H. induction xs as [| x xs IH]; intros acc; simpl.
  - apply emits_ret.
  - apply emits_bind; auto.
Qed.

Lemma emits_not_awaited P (m : M unit) : emits P m -> emits P (not_awaited m).
Proof.
  intros Hm log. destruct (Hm log) as (evs & E & HP).
  exists evs. split; [exact E | exact HP].
Qed.

Ltac emits_tac :=
  repeat first
    [ apply emits_ret
    | apply emits_lift
    | apply emits_throw
    | apply emits_history
    | apply emits_tell; intros ?; discriminate
    | apply emits_for_of_acc; intros
    | apply emits_bind; [ | intros ]
    | match goal with
      | |- emits _ (if ?b then _ else _) => destruct b
      | |- emits _ (match ?x with _ => _ end) => destruct x
      end ].

(** The executor that [generateReportForModules] passes to
    [traverseDirs] records no invocation of its own. *)
Lemma generateReportForModule_quiet w :
  quiet (fun path out wf up =>
           not_awaited (generateReportForModule_started w path out wf up)).
Proof.
  intros path out wf up. apply emits_not_awaited.
  unfold generateReportForModule_started, generateReport_started,
    buildJsonReport_started, call_extractDeclarations.
  emits_tac.
Qed.

Lemma below_child_first w root child names name k p :
  readdirSync w root = Returns names ->
  In name names ->
  child = (root ++ "/" ++ name)%string ->
  lstatSync_isDirectory w child = Returns true ->
  below w child k p -> below w root (S k) p.
Proof.
  intros Hdir Hin -> Hstat Hbelow.
  induction Hbelow.
  - eapply below_child; eauto. constructor.
  - eapply below_child; eauto.
Qed.

Lemma traverseDirs_emits w body dir out wf up level limit :
  quiet body ->
  emits (within w dir level limit)
        (traverseDirs w dir out wf up (instrumented body) level limit).
Proof.
  intros Hq. remember (instrumented body) as ex eqn:Hex.
  funelim (traverseDirs w dir out wf up ex level limit).
  - apply emits_ret.
  - apply emits_bind.
    + unfold instrumented. apply emits_bind.
      * apply emits_tell. intros p [= <-]. exists 0%nat. split; [lia | constructor].
      * intros _. eapply emits_weaken; [| apply Hq].
        intros ev Hne p ->. exfalso. exact (Hne p eq_refl).
    + intros _. apply emits_bind_lift. intros names Hnames.
      apply emits_for_of. intros name Hin.
      apply emits_bind_lift. intros isDirectory Hstat.
      destruct isDirectory; [| apply emits_ret].
      eapply emits_weaken; [| exact (H tt names name true [] body Hq eq_refl)].
      intros ev Hw p ->. destruct (Hw p eq_refl) as (k & Hk & Hbelow).
      exists (S k). split; [lia |].
      eapply below_child_first; eauto.
Qed.

(** C4. Started at level 0, [traverseDirs] invokes the executor only
    on directories at most [levelLimit] levels below the root: every
    invocation that the run records is on a directory [k] levels below
    [root] with [k <= levelLimit], whatever lies deeper. *)
Theorem traverseDirs_depth_limit (w : World) (root : string)
    (outputDirectory : option string) (writeFiles uploadToCI : bool)
    (body : Executor) (levelLimit : Z) (log : list Event) :
  quiet body ->
  forall p,
    In (EvExecutor p)
       (emitted (traverseDirs w root outputDirectory writeFiles uploadToCI
                   (instrumented body) 0 levelLimit) log) ->
    exists k, (Z.of_nat k <= levelLimit)%Z /\ below w root k p.
Proof.
  intros Hq p Hin.
  pose proof (emits_emitted _ _ log
                (traverseDirs_emits w body root outputDirectory writeFiles
                   uploadToCI 0 levelLimit Hq)) as Hall.
  rewrite List.Forall_forall in Hall.
  destruct (Hall _ Hin p eq_refl) as (k & Hk & Hbelow).
  exists k. split; [lia | exact Hbelow].
Qed.

Lemma traverseDirs_depth_limit_witness :
  exists k, (Z.of_nat k <= 1)%Z /\ below deep_world "/pkg" k "/pkg/memory".
Proof.
  apply (traverseDirs_depth_limit deep_world "/pkg" None false false
           (fun path out wf up =>
              not_awaited (generateReportForModule_started deep_world path out wf up))
           1 []).
  - apply generateReportForModule_quiet.
  - vm_compute. right. left. reflexivity.
Defined.

(** With the limit 1 of [generateReportForModules], the directory two
    levels down exists and is not visited. *)
Example traverseDirs_stops_at_limit :
  below deep_world "/pkg" 2 "/pkg/memory/deep"
  /\ emitted (traverseDirs deep_world "/pkg" None false false
                (instrumented bare_executor) 0 1) []
     = [EvExecutor "/pkg"; EvExecutor "/pkg/memory"].
Proof.
  split; [| reflexivity].
  apply (below_child deep_world "/pkg" 1 "/pkg/memory" ["deep"] "deep");
    [| reflexivity | left; reflexivity | reflexivity].
  apply (below_child deep_world "/pkg" 0 "/pkg" ["memory"; "README.md"] "memory");
    [constructor | reflexivity | left; reflexivity | reflexivity].
Qed.


(** ** A symbol listed in several categories *)

Lemma symbols_split api c :
  symbols api = processed_before api c ++ member api c ++ processed_after api c.
Proof.
  unfold symbols. destruct c; simpl; rewrite <- ?app_assoc, ?app_nil_r; reflexivity.
Qed.

Lemma set_all_lookup_other key elements : forall (map : gmap string string) s,
  ~ In s elements -> set_all key map elements !! s = map !! s.
Proof.
  unfold set_all.
  induction elements as [| x xs IH]; intros map s Hout; simpl; [reflexivity |].
  simpl in Hout. rewrite IH by tauto. apply lookup_insert_ne. intuition congruence.
Qed.

Lemma set_all_lookup_member key elements : forall (map : gmap string string) s,
  In s elements -> set_all key map elements !! s = Some key.
Proof.
  unfold set_all.
  induction elements as [| x xs IH]; intros map s Hin; simpl; [destruct Hin |].
  destruct (in_dec string_dec s xs) as [Hxs | Hxs].
  - apply IH. exact Hxs.
  - destruct Hin as [-> | Hin]; [| contradiction].
    fold (set_all key (<[s := key]> map) xs).
    rewrite set_all_lookup_other by exact Hxs. apply lookup_insert_eq.
Qed.

Lemma buildMap_last_category api c s :
  own_keys api = [Classes; Functions; Variables; Enums] ->
  In s (member api c) ->
  ~ In s (processed_after api c) ->
  buildMap api !! s = Some (key_name c).
Proof.
  intros Hkeys Hin Hafter. unfold buildMap. rewrite Hkeys. simpl.
  repeat match goal with
         | |- context [fold_left (fun map element => <[element := ?k]> map) ?xs ?m] =>
             change (fold_left (fun map element => <[element := k]> map) xs m)
               with (set_all k m xs)
         end.
  destruct c; simpl in *; rewrite ?in_app_iff in Hafter.
  - rewrite !set_all_lookup_other by tauto. apply set_all_lookup_member. exact Hin.
  - rewrite !set_all_lookup_other by tauto. apply set_all_lookup_member. exact Hin.
  - rewrite !set_all_lookup_other by tauto. apply set_all_lookup_member. exact Hin.
  - apply set_all_lookup_member. exact Hin.
Qed.

Lemma listed_In (api : MemberList) (s : string) (c : Category) :
  listed api s c = true <-> In s (member api c).
Proof.
  unfold listed. rewrite existsb_exists. split.
  - intros (x & Hin & Heq). apply String.eqb_eq in Heq. subst. exact Hin.
  - intros Hin. exists s. split; [exact Hin | apply String.eqb_refl].
Qed.

Lemma find_snoc {A} (f : A -> bool) (l : list A) (x : A) :
  find f (l ++ [x])
  = match find f l with
    | Some y => Some y
    | None => if f x then Some x else None
    end.
Proof.
  induction l as [| y l IH]; simpl; [reflexivity |].
  destruct (f y); [reflexivity | exact IH].
Qed.

Lemma buildMap_fold_lookup (api : MemberList) (s : string) (keys : list Category) :
  forall m : gmap string string,
    fold_left
      (fun map key =>
         fold_left (fun map element => <[element := key_name key]> map)
                   (member api key) map)
      keys m !! s
    = match find (listed api s) (rev keys) with
      | Some c => Some (key_name c)
      | None => m !! s
      end.
Proof.
  induction keys as [| c keys IH]; intros m; simpl; [reflexivity |].
  rewrite IH, find_snoc.
  destruct (find (listed api s) (rev keys)); [reflexivity |].
  change (fold_left (fun map element => <[element := key_name c]> map)
            (member api c) m)
    with (set_all (key_name c) m (member api c)).
  destruct (listed api s c) eqn:E.
  - apply set_all_lookup_member. apply listed_In. exact E.
  - apply set_all_lookup_other. intros Hin. apply listed_In in Hin. congruence.
Qed.

(** C10 does not hold as stated: [buildMap] follows the order of
    [Object.keys].  In a member list whose properties were created in
    the order functions, classes, variables, enums, [Timestamp] is
    listed as a class and as a function, the last category that lists
    it in the order classes, functions, variables, enums is functions,
    and [buildMap] maps it to classes. *)
Lemma duplicate_symbol_counterexample :
  In "Timestamp" (member dup_members_functions_first Classes)
  /\ In "Timestamp" (member dup_members_functions_first Functions)
  /\ ~ In "Timestamp" (processed_after dup_members_functions_first Functions)
  /\ buildMap dup_members_functions_first !! "Timestamp" = Some (key_name Classes)
  /\ buildMap dup_members_functions_first !! "Timestamp"
     <> Some (key_name Functions).
Proof.
  split; [left; reflexivity |].
  split; [right; left; reflexivity |].
  split; [simpl; tauto |].
  split; [reflexivity | discriminate].
Qed.

(** C10, amended.  Let [s] be a symbol other than [__proto__] and [c]
    the last category that lists [s] in the order classes, functions,
    variables, enums (possibly after earlier categories that list it
    too), the last occurrence of [s] in [c] being after [pre].  If the
    extractor answers for every symbol, no error is raised; [buildMap]
    maps [s] to the last key of the member list, in the order of
    [Object.keys], under which [s] is listed -- which is [c] when the
    keys come in the order classes, functions, variables, enums; and
    the report, whose text is written out by [report_text], has exactly
    one entry for [s], whose value is the answer [d] that the extractor
    gave at that last occurrence, that is after the loops had processed
    the earlier categories and [pre]. *)
Theorem duplicate_symbol_last_category_wins (w : World) (api : MemberList)
    (jsFile : string) (log : list Event) (c : Category) (s : string)
    (pre post : list string) :
  s <> "__proto__" ->
  member api c = pre ++ s :: post ->
  ~ In s post ->
  ~ In s (processed_after api c) ->
  (forall h exp, In exp (symbols api) ->
     exists d, extractDependenciesAndSize w h exp jsFile (buildMap api) = Returns d) ->
  buildMap api !! s
  = option_map key_name (find (listed api s) (rev (own_keys api)))
  /\ (own_keys api = [Classes; Functions; Variables; Enums] ->
      buildMap api !! s = Some (key_name c))
  /\ exists result log' acc1 log1 d,
       buildJsonReport_result w api jsFile (buildMap api) log = (Ok result, log')
       /\ fst (buildJsonReport w api jsFile (buildMap api) log)
          = Ok (report_text result)
       /\ for_of_acc (processed_before api c ++ pre)
                     (record_export w jsFile (buildMap api)) Obj.empty log
          = (Ok acc1, log1)
       /\ extractDependenciesAndSize w log1 s jsFile (buildMap api) = Returns d
       /\ Obj.get s result = Some d
       /\ count_occ string_dec (Obj.keys result) s = 1%nat.
Proof.
  intros Hplain Hmember Hpost Hafter Hok.
  split.
  { unfold buildMap. rewrite buildMap_fold_lookup.
    destruct (find (listed api s) (rev (own_keys api))); [reflexivity |].
    apply lookup_empty. }
  split.
  { intros Hkeys. apply buildMap_last_category; auto.
    rewrite Hmember. apply in_elt. }
  set (map := buildMap api) in *.
  set (step := record_export w jsFile map).
  assert (Hsplit : symbols api
                   = (processed_before api c ++ pre) ++ [s] ++ (post ++ processed_after api c)).
  { rewrite (symbols_split api c), Hmember. rewrite <- !app_assoc. reflexivity. }
  destruct (record_loop_total w jsFile map (symbols api) Hok Obj.empty log)
    as (result & log' & Hloop).
  pose proof Hloop as Hrun.
  rewrite Hsplit in Hrun.
  rewrite for_of_acc_app in Hrun. unfold bind at 1 in Hrun.
  destruct (for_of_acc (processed_before api c ++ pre) (record_export w jsFile map)
              Obj.empty log) as [[acc1 | e] log1] eqn:Hfront; [| discriminate].
  rewrite for_of_acc_app in Hrun. unfold bind at 1 in Hrun. simpl in Hrun.
  unfold bind at 1 in Hrun. rewrite record_export_run in Hrun.
  destruct (extractDependenciesAndSize w log1 s jsFile map) as [d | what] eqn:Hd;
    [| discriminate].
  unfold ret in Hrun.
  exists result, log', acc1, log1, d.
  assert (Hres : buildJsonReport_result w api jsFile map log = (Ok result, log')).
  { rewrite buildJsonReport_result_loop. exact Hloop. }
  split; [| split; [| split; [| split; [| split]]]].
  - exact Hres.
  - unfold buildJsonReport, bind. rewrite Hres. simpl.
    rewrite stringify_report. reflexivity.
  - exact Hfront.
  - exact Hd.
  - rewrite (record_loop_get_other _ _ _ _ _ _ _ _ _ Hrun).
    + apply Obj_get_set_eq. exact Hplain.
    + rewrite in_app_iff. tauto.
  - destruct (record_loop_keys _ _ _ _ _ _ _ _ Hloop) as [Hnd Hin].
    apply NoDup_count_occ'; [apply Hnd; constructor |].
    apply Hin. right. split; [| exact Hplain].
    rewrite Hsplit. rewrite !in_app_iff. simpl. tauto.
Qed.

Lemma duplicate_symbol_last_category_wins_witness :
  buildMap dup_members !! "Timestamp"
  = option_map key_name
      (find (listed dup_members "Timestamp") (rev (own_keys dup_members)))
  /\ (own_keys dup_members = [Classes; Functions; Variables; Enums] ->
      buildMap dup_members !! "Timestamp" = Some (key_name Functions))
  /\ exists result log' acc1 log1 d,
       buildJsonReport_result dup_world dup_members "index.esm2017.js"
         (buildMap dup_members) [] = (Ok result, log')
       /\ fst (buildJsonReport dup_world dup_members "index.esm2017.js"
                 (buildMap dup_members) [])
          = Ok (report_text result)
       /\ for_of_acc (["Timestamp"] ++ ["getApp"])
                     (record_export dup_world "index.esm2017.js" (buildMap dup_members))
                     Obj.empty []
          = (Ok acc1, log1)
       /\ extractDependenciesAndSize dup_world log1 "Timestamp" "index.esm2017.js"
            (buildMap dup_members) = Returns d
       /\ Obj.get "Timestamp" result = Some d
       /\ count_occ string_dec (Obj.keys result) "Timestamp" = 1%nat.
Proof.
  apply (duplicate_symbol_last_category_wins dup_world dup_members "index.esm2017.js"
           [] Functions "Timestamp" ["getApp"] []).
  - discriminate.
  - reflexivity.
  - simpl. tauto.
  - simpl. tauto.
  - intros h exp _. eexists. reflexivity.
Defined.

(** The entry of [Timestamp] is the answer of the third call (two
    events logged before it), not the answer of the first. *)
Example duplicate_symbol_overwritten :
  fst (buildJsonReport_result dup_world dup_members "index.esm2017.js"
         (buildMap dup_members) [])
  = Ok [("Timestamp", {| dependencies := ["Timestamp"]; size := 2 |});
        ("getApp", {| dependencies := ["getApp"]; size := 1 |})].
Proof. reflexivity. Qed.


(** [buildMap] follows the property order of the object: were the
    properties created in another order, the category that it keeps for
    a symbol listed twice would differ. *)
Example buildMap_follows_own_keys :
  buildMap dup_members_functions_first !! "Timestamp" = Some "classes".
Proof. reflexivity. Qed.

(** ** The adapter of the registration module *)

(** C8. [internalFactory] either returns an adapter whose [logEvent]
    forwards its three arguments to [logEvent] of [./api] on the client
    that the container resolved, or, when [getProvider] or
    [getImmediate] throws [e], throws one error with the code
    [INTEROP_COMPONENT_REG_FAILED] and the reason [e]. *)
Theorem internalFactory_forwards_or_wraps
    (E Analytics Params Options Logged : Type) (ANALYTICS_TYPE : string)
    (api_logEvent : Analytics -> string -> option Params -> option Options -> Logged)
    (container : ComponentContainer E Analytics) :
  (forall provider analytics,
     getProvider container ANALYTICS_TYPE = Done provider ->
     getImmediate provider = Done analytics ->
     exists adapter,
       internalFactory ANALYTICS_TYPE api_logEvent container = Done adapter
       /\ forall eventName eventParams options,
            logEvent adapter eventName eventParams options
            = api_logEvent analytics eventName eventParams options)
  /\ (forall e,
        getProvider container ANALYTICS_TYPE = Thrown e ->
        internalFactory ANALYTICS_TYPE api_logEvent container
        = Thrown {| code := INTEROP_COMPONENT_REG_FAILED; reason := e |})
  /\ (forall provider e,
        getProvider container ANALYTICS_TYPE = Done provider ->
        getImmediate provider = Thrown e ->
        internalFactory ANALYTICS_TYPE api_logEvent container
        = Thrown {| code := INTEROP_COMPONENT_REG_FAILED; reason := e |}).
Proof.
  unfold internalFactory, try_catch, and_then, ERROR_FACTORY_create.
  split; [| split].
  - intros provider analytics -> ->. eexists. split; reflexivity.
  - intros e ->. reflexivity.
  - intros provider e -> ->. reflexivity.
Qed.

(** * Further properties of [analysis.ts] *)

(** ** The calls of the report builder *)

Section ReportTrace.

Variable w : World.
Variables (jsFile : string) (map : gmap string string).

Lemma record_loop_trace xs : forall acc log result log',
  for_of_acc xs (record_export w jsFile map) acc log = (Ok result, log') ->
  log' = log ++ List.map (extraction_of jsFile map) xs.
Proof.
  induction xs as [| x xs IH]; intros acc log result log'; simpl.
  - unfold ret. intros [= <- <-]. symmetry. apply app_nil_r.
  - unfold bind. rewrite record_export_run.
    destruct (extractDependenciesAndSize w log x jsFile map) as [d | what];
      [| discriminate].
    intros Hrun. apply IH in Hrun. rewrite Hrun, <- app_assoc. reflexivity.
Qed.

(** The loop stops at the first symbol for which the extractor fails. *)
Lemma record_loop_abort pre s post what : forall acc log,
  (forall h exp, In exp pre ->
     exists d, extractDependenciesAndSize w h exp jsFile map = Returns d) ->
  extractDependenciesAndSize w (log ++ List.map (extraction_of jsFile map) pre)
    s jsFile map = Fails what ->
  for_of_acc (pre ++ s :: post) (record_export w jsFile map) acc log
  = (Raise (Foreign what), log ++ List.map (extraction_of jsFile map) (pre ++ [s])).
Proof.
  induction pre as [| x pre IH]; intros acc log Hpre Hs; simpl in *.
  - unfold bind. rewrite record_export_run. rewrite app_nil_r in Hs.
    rewrite Hs. reflexivity.
  - unfold bind. rewrite record_export_run.
    destruct (Hpre log x (or_introl eq_refl)) as [d Hd]. rewrite Hd.
    rewrite IH.
    + rewrite <- app_assoc. reflexivity.
    + intros h exp Hin. apply Hpre. right. exact Hin.
    + rewrite <- app_assoc. exact Hs.
Qed.

End ReportTrace.

(** X1. On a valid pair of files, [generateReport] calls
    [extractDeclarations] on the resolved declaration path, logs the
    member list, and then calls [extractDependenciesAndSize] once for
    every listed symbol, in the order classes, functions, variables,
    enums, with the bundle path as it was given (not resolved) and the
    map of [buildMap]; it calls nothing else. *)
Theorem generateReport_calls (w : World) (dtsFile bundleFile : string)
    (log : list Event) (api : MemberList) :
  existsSync w (resolve w dtsFile) = true ->
  existsSync w (resolve w bundleFile) = true ->
  extractDeclarations w (resolve w dtsFile) = Returns api ->
  (forall h exp, In exp (symbols api) ->
     exists d, extractDependenciesAndSize w h exp bundleFile (buildMap api) = Returns d) ->
  emitted (generateReport w dtsFile bundleFile) log
  = EvExtractDeclarations (resolve w dtsFile)
      :: EvConsoleLogMembers api
      :: List.map (extraction_of bundleFile (buildMap api)) (symbols api).
Proof.
  intros Hdts Hbundle Hapi Hok.
  set (log1 := (log ++ [EvExtractDeclarations (resolve w dtsFile)])
                 ++ [EvConsoleLogMembers api]).
  destruct (record_loop_total w bundleFile (buildMap api) (symbols api) Hok
              Obj.empty log1) as (result & log' & Hloop).
  pose proof (record_loop_trace _ _ _ _ _ _ _ _ Hloop) as Htrace.
  assert (Hrun : snd (generateReport w dtsFile bundleFile log) = log').
  { unfold generateReport. rewrite Hdts, Hbundle. simpl.
    unfold call_extractDeclarations, bind at 1 2, tell, lift.
    rewrite Hapi. unfold bind at 1, tell. fold log1.
    unfold buildJsonReport, bind.
    rewrite buildJsonReport_result_loop, Hloop. reflexivity. }
  unfold emitted. rewrite Hrun, Htrace. unfold log1.
  rewrite <- !app_assoc. rewrite skipn_app, skipn_all, Nat.sub_diag. reflexivity.
Qed.

Lemma generateReport_calls_witness :
  emitted (generateReport foo_Bar_world "index.d.ts" "index.esm2017.js") []
  = EvExtractDeclarations "index.d.ts"
      :: EvConsoleLogMembers (foo_Bar_members [Classes; Functions; Variables; Enums])
      :: List.map (extraction_of "index.esm2017.js"
                     (buildMap (foo_Bar_members [Classes; Functions; Variables; Enums])))
                  ["Bar"; "foo"].
Proof.
  apply (generateReport_calls foo_Bar_world "index.d.ts" "index.esm2017.js" []
           (foo_Bar_members [Classes; Functions; Variables; Enums])).
  - reflexivity.
  - reflexivity.
  - reflexivity.
  - intros h exp Hin. simpl in Hin.
    destruct Hin as [<- | [<- | []]]; eexists; reflexivity.
Defined.

(** X2. No partial report: when the extractor fails for a symbol, all
    symbols before it having been answered, [buildJsonReport] raises
    that failure, and the symbols after it are not extracted. *)
Theorem buildJsonReport_aborts_at_first_failure (w : World) (api : MemberList)
    (jsFile : string) (map : gmap string string) (log : list Event)
    (pre post : list string) (s what : string) :
  symbols api = pre ++ s :: post ->
  (forall h exp, In exp pre ->
     exists d, extractDependenciesAndSize w h exp jsFile map = Returns d) ->
  extractDependenciesAndSize w (log ++ List.map (extraction_of jsFile map) pre)
    s jsFile map = Fails what ->
  buildJsonReport w api jsFile map log
  = (Raise (Foreign what), log ++ List.map (extraction_of jsFile map) (pre ++ [s])).
Proof.
  intros Hsplit Hpre Hs.
  unfold buildJsonReport, bind.
  rewrite buildJsonReport_result_loop, Hsplit.
  rewrite (record_loop_abort w jsFile map pre s post what Obj.empty log Hpre Hs).
  reflexivity.
Qed.

Lemma buildJsonReport_aborts_at_first_failure_witness :
  buildJsonReport failing_world three_members "index.esm2017.js" ∅ []
  = (Raise (Foreign "cannot extract"),
     [] ++ List.map (extraction_of "index.esm2017.js" ∅) (["Bar"; "foo"] ++ ["baz"])).
Proof.
  apply (buildJsonReport_aborts_at_first_failure failing_world three_members
           "index.esm2017.js" ∅ [] ["Bar"; "foo"] ["Bar"; "VERSION"] "baz"
           "cannot extract").
  - reflexivity.
  - intros h exp Hin. simpl in Hin.
    destruct Hin as [<- | [<- | []]]; eexists; reflexivity.
  - reflexivity.
Defined.

(** X3. For a module that exports nothing, [buildJsonReport] returns the
    empty object and does not call the extractor. *)
Theorem buildJsonReport_no_exports (w : World) (api : MemberList)
    (jsFile : string) (map : gmap string string) (log : list Event) :
  symbols api = [] ->
  buildJsonReport w api jsFile map log = (Ok "{}", log).
Proof.
  intros Hnone. unfold buildJsonReport, bind.
  rewrite buildJsonReport_result_loop, Hnone. reflexivity.
Qed.

Lemma buildJsonReport_no_exports_witness :
  buildJsonReport typings_only_world no_members "index.esm2017.js" ∅ []
  = (Ok "{}", []).
Proof.
  apply (buildJsonReport_no_exports typings_only_world no_members
           "index.esm2017.js" ∅ []).
  reflexivity.
Defined.

(** ** What the report builder leaves alone *)

Lemma analysis_event_no_write (ev : Event) : analysis_event ev -> no_write ev.
Proof. destruct ev; simpl; intros H; try reflexivity; destruct H. Qed.

Lemma analysis_only_record_loop (w : World) (jsFile : string)
    (map : gmap string string) (xs : list string) (acc : Obj.t ExportData) :
  emits analysis_event (for_of_acc xs (record_export w jsFile map) acc).
Proof.
  apply emits_for_of_acc. intros exp acc'.
  unfold record_export, call_extractDependenciesAndSize.
  apply emits_bind; [| intros; apply emits_ret].
  apply emits_bind; [apply emits_history | intros h].
  apply emits_bind; [apply emits_tell; exact I | intros _; apply emits_lift].
Qed.

Lemma analysis_only_generateReport (w : World) (dtsFile bundleFile : string) :
  emits analysis_event (generateReport w dtsFile bundleFile).
Proof.
  unfold generateReport.
  destruct (negb (existsSync w (resolve w dtsFile))
            || negb (existsSync w (resolve w bundleFile))); [apply emits_throw |].
  apply emits_bind.
  - unfold call_extractDeclarations.
    apply emits_bind; [apply emits_tell; exact I | intros _; apply emits_lift].
  - intros api. apply emits_bind; [apply emits_tell; exact I | intros _].
    unfold buildJsonReport, buildJsonReport_result.
    repeat (apply emits_bind; [try apply analysis_only_record_loop | intros]).
    all: apply emits_ret.
Qed.

(** X4. [generateReport] only reads: whatever the files and the
    extractors do, the only calls it makes are those of the two
    extractors and the console log of the member list; it calls neither
    [writeReportToFile] nor [writeReportToDirectory]. *)
Theorem generateReport_reads_only (w : World) (dtsFile bundleFile : string)
    (log : list Event) :
  Forall (fun ev => analysis_event ev /\ is_write ev = false)
         (emitted (generateReport w dtsFile bundleFile) log).
Proof.
  apply (emits_emitted (fun ev => analysis_event ev /\ is_write ev = false)).
  apply (emits_weaken analysis_event); [| apply analysis_only_generateReport].
  intros ev H. split; [exact H | apply analysis_event_no_write; exact H].
Qed.

(** ** The order of the keys of the report *)

Lemma Obj_has_existsb {V} (k : string) (o : Obj.t V) :
  Obj.has k o = existsb (String.eqb k) (Obj.keys o).
Proof.
  unfold Obj.has. induction o as [| [k' v'] o IH]; simpl; [reflexivity |].
  destruct (String.eqb k k'); [reflexivity | exact IH].
Qed.

Lemma Obj_keys_set_plain {V} (k : string) (v : V) (o : Obj.t V) :
  k <> "__proto__" ->
  Obj.array_index k = None ->
  Obj.keys (Obj.set k v o)
  = if Obj.has k o then Obj.keys o else Obj.keys o ++ [k].
Proof.
  intros Hk Hplain. rewrite Obj_set_plain_key by exact Hk.
  destruct (Obj.has k o).
  - apply Obj_keys_replace.
  - rewrite Hplain. unfold Obj.keys. rewrite map_app. reflexivity.
Qed.

Lemma record_loop_key_order (w : World) (jsFile : string)
    (map : gmap string string) (xs : list string) :
  (forall s, In s xs -> Obj.array_index s = None) ->
  forall acc log result log',
    for_of_acc xs (record_export w jsFile map) acc log = (Ok result, log') ->
    Obj.keys result
    = Obj.keys acc
      ++ first_occurrences (Obj.keys acc)
           (List.filter (fun s => negb (String.eqb s "__proto__")) xs).
Proof.
  induction xs as [| x xs IH]; intros Hplain acc log result log'; simpl.
  - unfold ret. intros [= <- <-]. symmetry. apply app_nil_r.
  - unfold bind. rewrite record_export_run.
    destruct (extractDependenciesAndSize w log x jsFile map) as [d | what];
      [| discriminate].
    intros Hrun. apply IH in Hrun; [| intros s Hs; apply Hplain; right; exact Hs].
    rewrite Hrun. destruct (String.eqb x "__proto__") eqn:Ex; simpl.
    + apply String.eqb_eq in Ex. subst x. rewrite Obj_set_proto. reflexivity.
    + apply String.eqb_neq in Ex.
      rewrite Obj_keys_set_plain by (auto; apply Hplain; left; reflexivity).
      rewrite Obj_has_existsb.
      destruct (existsb (String.eqb x) (Obj.keys acc)); [reflexivity |].
      rewrite <- app_assoc. reflexivity.
Qed.

(** X5. When no symbol is the decimal numeral of an array index (no
    identifier is), the keys of the report come in the order in which
    the loops first meet each symbol: classes, then functions, then
    variables, then enums, a symbol met again keeping its place.  The
    symbol [__proto__], for which the assignment stores nothing, is not
    among them. *)
Theorem report_keys_in_order_of_first_occurrence (w : World) (api : MemberList)
    (jsFile : string) (map : gmap string string) (log : list Event) :
  (forall s, In s (symbols api) -> Obj.array_index s = None) ->
  (forall h exp, In exp (symbols api) ->
     exists d, extractDependenciesAndSize w h exp jsFile map = Returns d) ->
  exists result log',
    buildJsonReport_result w api jsFile map log = (Ok result, log')
    /\ Obj.keys result
       = first_occurrences []
           (List.filter (fun s => negb (String.eqb s "__proto__")) (symbols api)).
Proof.
  intros Hplain Hok.
  destruct (record_loop_total w jsFile map (symbols api) Hok Obj.empty log)
    as (result & log' & Hloop).
  exists result, log'. split.
  - rewrite buildJsonReport_result_loop. exact Hloop.
  - apply (record_loop_key_order w jsFile map (symbols api) Hplain) in Hloop.
    exact Hloop.
Qed.

Lemma report_keys_in_order_of_first_occurrence_witness :
  exists result log',
    buildJsonReport_result three_world three_members "index.esm2017.js" ∅ []
    = (Ok result, log')
    /\ Obj.keys result = ["Bar"; "foo"; "baz"; "VERSION"].
Proof.
  apply (report_keys_in_order_of_first_occurrence three_world three_members
           "index.esm2017.js" ∅ []).
  - intros s Hin. simpl in Hin.
    destruct Hin as [<- | [<- | [<- | [<- | [<- | []]]]]]; reflexivity.
  - intros h exp _. eexists. reflexivity.
Defined.

(** ** The per-module action *)

(** X6. A directory that is not a public module is skipped without an
    error and without any call: when it has no [package.json], or when
    its manifest has no [typings] entry -- also when the manifest has
    no [esm2017] entry either. *)
Theorem generateReportForModule_skips (w : World) (path : string)
    (outputDirectory : option string) (writeFiles uploadToCI : bool)
    (log : list Event) (manifest : string -> Js.Value) :
  existsSync w (path ++ "/package.json") = false
  \/ (require w (path ++ "/package.json") = Returns manifest
      /\ Js.truthy (manifest TYPINGS) = false) ->
  generateReportForModule w path outputDirectory writeFiles uploadToCI log
  = (Ok tt, log).
Proof.
  intros [Hnone | [Hrequire Htypings]]; unfold generateReportForModule.
  - rewrite Hnone. reflexivity.
  - destruct (existsSync w (path ++ "/package.json")); [| reflexivity].
    simpl. unfold bind, lift. rewrite Hrequire, Htypings. reflexivity.
Qed.

Lemma generateReportForModule_skips_witness :
  generateReportForModule private_world "/m" (Some "out") true true []
  = (Ok tt, []).
Proof.
  apply (generateReportForModule_skips private_world "/m" (Some "out") true true []
           private_manifest).
  right. split; reflexivity.
Defined.

(** X7. Routing of the report of a module.  When the analysis of the
    two artifacts named by the manifest returns [json], the action
    reads the package name (a name that is not a string is a
    [TypeError]), then, if [writeFiles] is set, resolves the output
    directory (an undefined one is a [TypeError]) and writes [json] to
    [<basename of the package name>-dependency.json] in it (a failure
    of the write is raised), then, if [uploadToCI] is set, logs the
    upload placeholder; it does nothing else. *)
Theorem generateReportForModule_routes_report (w : World) (path : string)
    (outputDirectory : option string) (writeFiles uploadToCI : bool)
    (log log1 : list Event) (manifest : string -> Js.Value) (json : string) :
  existsSync w (path ++ "/package.json") = true ->
  require w (path ++ "/package.json") = Returns manifest ->
  Js.truthy (manifest TYPINGS) = true ->
  Js.truthy (manifest BUNDLE) = true ->
  generateReport w (path ++ "/" ++ Js.toString (manifest TYPINGS))
                   (path ++ "/" ++ Js.toString (manifest BUNDLE)) log
  = (Ok json, log1) ->
  generateReportForModule w path outputDirectory writeFiles uploadToCI log
  = match manifest "name" with
    | Js.VString name =>
        let fileName := (basename w name ++ "-dependency.json")%string in
        let upload := if uploadToCI then [EvConsoleLog "TODO"] else [] in
        if writeFiles then
          match outputDirectory with
          | None => (Raise (Foreign "TypeError"), log1)
          | Some dir =>
              match writeReportToDirectory w json fileName (resolve w dir) with
              | Returns _ =>
                  (Ok tt,
                   log1 ++ [EvWriteReportToDirectory json fileName (resolve w dir)]
                        ++ upload)
              | Fails what =>
                  (Raise (Foreign what),
                   log1 ++ [EvWriteReportToDirectory json fileName (resolve w dir)])
              end
          end
        else (Ok tt, log1 ++ upload)
    | _ => (Raise (Foreign "TypeError"), log1)
    end.
Proof.
  intros Hexists Hrequire Htypings Hbundle Hreport.
  unfold generateReportForModule. rewrite Hexists. simpl.
  unfold bind at 1, lift at 1. rewrite Hrequire, Htypings, Hbundle. simpl.
  unfold bind at 1. rewrite Hreport.
  unfold bind at 1, call_basename.
  destruct (manifest "name") as [| | b | nz repr | name | repr]; try reflexivity.
  unfold ret at 1.
  destruct writeFiles, uploadToCI, outputDirectory as [dir |];
    cbv [bind string_arg call_writeReportToDirectory uploadReportToCI tell lift
         ret throw];
    try destruct (writeReportToDirectory w json
                    (basename w name ++ "-dependency.json") (resolve w dir))
      as [[] | what];
    simpl; rewrite ?app_nil_r, <- ?app_assoc; reflexivity.
Qed.

Lemma generateReportForModule_routes_report_witness :
  generateReportForModule module_world "/m" (Some "reports") true true []
  = (Ok tt,
     [EvExtractDeclarations "/m/index.d.ts"; EvConsoleLogMembers no_members]
       ++ [EvWriteReportToDirectory "{}" "functions-exp-dependency.json" "reports"]
       ++ [EvConsoleLog "TODO"]).
Proof.
  exact (generateReportForModule_routes_report module_world "/m" (Some "reports")
           true true []
           [EvExtractDeclarations "/m/index.d.ts"; EvConsoleLogMembers no_members]
           full_manifest "{}" eq_refl eq_refl eq_refl eq_refl eq_refl).
Defined.

(** X8. No report is written for a module whose analysis fails: when
    [generateReport] raises [e], the action raises [e], having made no
    call besides those of the analysis (no write, no upload). *)
Theorem generateReportForModule_failed_analysis (w : World) (path : string)
    (outputDirectory : option string) (writeFiles uploadToCI : bool)
    (log log1 : list Event) (manifest : string -> Js.Value) (e : exn) :
  existsSync w (path ++ "/package.json") = true ->
  require w (path ++ "/package.json") = Returns manifest ->
  Js.truthy (manifest TYPINGS) = true ->
  Js.truthy (manifest BUNDLE) = true ->
  generateReport w (path ++ "/" ++ Js.toString (manifest TYPINGS))
                   (path ++ "/" ++ Js.toString (manifest BUNDLE)) log
  = (Raise e, log1) ->
  generateReportForModule w path outputDirectory writeFiles uploadToCI log
  = (Raise e, log1)
  /\ Forall analysis_event
            (emitted (generateReportForModule w path outputDirectory
                        writeFiles uploadToCI) log).
Proof.
  intros Hexists Hrequire Htypings Hbundle Hreport.
  assert (Hrun : generateReportForModule w path outputDirectory writeFiles
                   uploadToCI log = (Raise e, log1)).
  { unfold generateReportForModule. rewrite Hexists. simpl.
    unfold bind at 1, lift at 1. rewrite Hrequire, Htypings, Hbundle. simpl.
    unfold bind at 1. rewrite Hreport. reflexivity. }
  split; [exact Hrun |].
  pose proof (emits_emitted analysis_event _ log
                (analysis_only_generateReport w
                   (path ++ "/" ++ Js.toString (manifest TYPINGS))
                   (path ++ "/" ++ Js.toString (manifest BUNDLE)))) as Hev.
  unfold emitted in *. rewrite Hreport in Hev. rewrite Hrun. exact Hev.
Qed.

Lemma generateReportForModule_failed_analysis_witness :
  generateReportForModule broken_module_world "/m" (Some "reports") true true []
  = (Raise (JsError INPUT_FILE_DOES_NOT_EXIST), [])
  /\ Forall analysis_event
            (emitted (generateReportForModule broken_module_world "/m"
                        (Some "reports") true true) []).
Proof.
  apply (generateReportForModule_failed_analysis broken_module_world "/m"
           (Some "reports") true true [] [] full_manifest
           (JsError INPUT_FILE_DOES_NOT_EXIST)); reflexivity.
Defined.

(** ** The walk of [traverseDirs] *)

Lemma traverseDirs_step (w : World) (dir : string) (out : option string)
    (wf up : bool) (ex : Executor) (level limit : Z) :
  traverseDirs w dir out wf up ex level limit
  = if Z_gt_dec level limit then ret tt
    else bind (ex dir out wf up) (fun _ =>
         bind (lift (readdirSync w dir)) (fun names =>
         for_of names (fun name =>
           bind (lift (lstatSync_isDirectory w (dir ++ "/" ++ name)))
                (fun isDirectory =>
                   if isDirectory
                   then traverseDirs w (dir ++ "/" ++ name) out wf up ex
                                     (level + 1) limit
                   else ret tt)))).
Proof.
  rewrite traverseDirs_equation_1.
  destruct (Z_gt_dec level limit); reflexivity.
Qed.

Lemma emits_appends {A} (P : Event -> Prop) (m : M A) : emits P m -> appends m.
Proof.
  intros Hm log. destruct (Hm log) as (evs & E & _). exists evs. exact E.
Qed.

(** A loop that ends normally has run its body, normally, on every
    element, between the start and the end of the loop. *)
Lemma for_of_Ok_inv {A} (xs : list A) (body : A -> M unit) :
  (forall x, appends (body x)) ->
  forall log log', for_of xs body log = (Ok tt, log') ->
  forall x, In x xs ->
    exists before evs after,
      body x (log ++ before) = (Ok tt, log ++ before ++ evs)
      /\ log' = log ++ before ++ evs ++ after.
Proof.
  intros Happ. induction xs as [| y ys IH]; intros log log' Hrun x Hin;
    [destruct Hin |].
  simpl in Hrun. unfold bind in Hrun.
  destruct (Happ y log) as (evs & Hevs).
  destruct (body y log) as [[[] | e] l1] eqn:Hy; [| discriminate].
  simpl in Hevs. subst l1.
  destruct Hin as [<- | Hin].
  - exists [], evs.
    assert (Hrest : exists after, log' = (log ++ evs) ++ after).
    { clear IH. revert Hrun. generalize (log ++ evs). clear - Happ.
      induction ys as [| z zs IHz]; intros l Hrun; simpl in Hrun.
      - injection Hrun as <-. exists []. symmetry. apply app_nil_r.
      - unfold bind in Hrun. destruct (Happ z l) as (ez & Hz).
        destruct (body z l) as [[[] | e] l2]; [| discriminate].
        simpl in Hz. subst l2. destruct (IHz _ Hrun) as (after & ->).
        exists (ez ++ after). rewrite app_assoc. reflexivity. }
    destruct Hrest as (after & ->).
    exists after. rewrite !app_nil_r. split; [exact Hy |].
    rewrite <- app_assoc. reflexivity.
  - destruct (IH _ _ Hrun x Hin) as (before & evs' & after & Hbody & ->).
    exists (evs ++ before), evs', after.
    rewrite <- !app_assoc in *. split; [exact Hbody | reflexivity].
Qed.

Lemma below_0_inv (w : World) (root p : string) : below w root 0 p -> p = root.
Proof. intros H. inversion H. reflexivity. Qed.

(** The first step of a path from [root] down to [p]. *)
Lemma below_first_step (w : World) (root : string) (k : nat) : forall p,
  below w root (S k) p ->
  exists names name,
    readdirSync w root = Returns names
    /\ In name names
    /\ lstatSync_isDirectory w (root ++ "/" ++ name) = Returns true
    /\ below w (root ++ "/" ++ name) k p.
Proof.
  induction k as [| k IH]; intros p H; inversion H; subst.
  - match goal with Hb : below w root 0 _ |- _ => apply below_0_inv in Hb; subst end.
    eexists _, _. repeat split; eauto. constructor.
  - match goal with Hb : below w root (S k) _ |- _ =>
      destruct (IH _ Hb) as (names' & name' & Hdir & Hin & Hstat & Hrest) end.
    exists names', name'. repeat split; auto.
    eapply below_child; eauto.
Qed.

Lemma appends_traverseDirs_instrumented (w : World) (body : Executor)
    (dir : string) (out : option string) (wf up : bool) (level limit : Z) :
  quiet body ->
  appends (traverseDirs w dir out wf up (instrumented body) level limit).
Proof.
  intros Hq. eapply emits_appends. apply traverseDirs_emits. exact Hq.
Qed.

Lemma traverseDirs_reaches (w : World) (body : Executor) (out : option string)
    (wf up : bool) (limit : Z) :
  quiet body ->
  forall k dir level log log' p,
    traverseDirs w dir out wf up (instrumented body) level limit log = (Ok tt, log') ->
    below w dir k p ->
    (level + Z.of_nat k <= limit)%Z ->
    exists before after, log' = log ++ before ++ EvExecutor p :: after.
Proof.
  intros Hq. induction k as [| k IH]; intros dir level log log' p Hrun Hbelow Hlevel.
  - apply below_0_inv in Hbelow. subst p.
    rewrite traverseDirs_step in Hrun.
    destruct (Z_gt_dec level limit) as [Hgt | _]; [lia |].
    unfold bind at 1 in Hrun. unfold instrumented at 1 in Hrun.
    unfold bind at 1, tell at 1 in Hrun.
    destruct (emits_appends _ _ (Hq dir out wf up) (log ++ [EvExecutor dir]))
      as (evs & Hevs).
    destruct (body dir out wf up (log ++ [EvExecutor dir])) as [[[] | e] l1];
      [| discriminate].
    simpl in Hevs. subst l1.
    assert (Happ : appends
              (bind (lift (readdirSync w dir)) (fun names =>
               for_of names (fun name =>
                 bind (lift (lstatSync_isDirectory w (dir ++ "/" ++ name)))
                      (fun isDirectory =>
                         if isDirectory
                         then traverseDirs w (dir ++ "/" ++ name) out wf up
                                (instrumented body) (level + 1) limit
                         else ret tt))))).
    { eapply (emits_appends (fun _ => True)).
      apply emits_bind_lift. intros names _. apply emits_for_of. intros name _.
      apply emits_bind_lift. intros [|] _; [| apply emits_ret].
      eapply emits_weaken; [| apply traverseDirs_emits; exact Hq]. auto. }
    destruct (Happ ((log ++ [EvExecutor dir]) ++ evs)) as (rest & Hrest).
    rewrite Hrun in Hrest. simpl in Hrest. subst log'.
    exists [], (evs ++ rest). simpl. rewrite <- !app_assoc. reflexivity.
  - destruct (below_first_step _ _ _ _ Hbelow)
      as (names & name & Hdir & Hin & Hstat & Hrest).
    rewrite traverseDirs_step in Hrun.
    destruct (Z_gt_dec level limit) as [Hgt | _]; [lia |].
    unfold bind at 1 in Hrun.
    destruct (instrumented body dir out wf up log) as [[[] | e] l1] eqn:Hexec;
      [| discriminate].
    assert (Hl1 : exists e1, l1 = log ++ e1).
    { assert (Ha : appends (instrumented body dir out wf up)).
      { unfold instrumented. eapply (emits_appends (fun _ => True)).
        apply emits_bind; [apply emits_tell; exact I | intros _].
        eapply emits_weaken; [| apply Hq]. auto. }
      destruct (Ha log) as (e1 & He1). rewrite Hexec in He1. eauto. }
    destruct Hl1 as (e1 & ->).
    unfold bind at 1, lift at 1 in Hrun. rewrite Hdir in Hrun.
    eapply for_of_Ok_inv in Hrun; [| | exact Hin].
    + destruct Hrun as (before & evs & after & Hbody & ->).
      unfold bind, lift in Hbody. rewrite Hstat in Hbody.
      apply (IH _ _ _ _ p) in Hbody; [| exact Hrest | lia].
      destruct Hbody as (b' & a' & Hb).
      rewrite <- !app_assoc in Hb.
      do 3 apply app_inv_head in Hb. subst evs.
      exists (e1 ++ before ++ b'), (a' ++ after).
      rewrite <- ?app_assoc. simpl. rewrite <- ?app_assoc. reflexivity.
    + intros name'. eapply (emits_appends (fun _ => True)).
      apply emits_bind_lift. intros [|] _; [| apply emits_ret].
      eapply emits_weaken; [| apply traverseDirs_emits; exact Hq]. auto.
Qed.

(** X9. The walk misses nothing within the limit: when a traversal
    started at level 0 ends normally, the executor has been invoked on
    every directory at most [levelLimit] levels below the root. *)
Theorem traverseDirs_visits_all (w : World) (root : string)
    (outputDirectory : option string) (writeFiles uploadToCI : bool)
    (body : Executor) (levelLimit : Z) (log log' : list Event)
    (k : nat) (p : string) :
  quiet body ->
  traverseDirs w root outputDirectory writeFiles uploadToCI
               (instrumented body) 0 levelLimit log = (Ok tt, log') ->
  below w root k p ->
  (Z.of_nat k <= levelLimit)%Z ->
  In (EvExecutor p)
     (emitted (traverseDirs w root outputDirectory writeFiles uploadToCI
                 (instrumented body) 0 levelLimit) log).
Proof.
  intros Hq Hrun Hbelow Hk.
  destruct (traverseDirs_reaches w body outputDirectory writeFiles uploadToCI
              levelLimit Hq k root 0%Z log log' p Hrun Hbelow)
    as (before & after & Hlog); [lia |].
  unfold emitted. rewrite Hrun. simpl. rewrite Hlog.
  rewrite skipn_app, skipn_all, Nat.sub_diag. simpl.
  apply in_or_app. right. left. reflexivity.
Qed.

Lemma traverseDirs_visits_all_witness :
  In (EvExecutor "/pkg/memory")
     (emitted (traverseDirs deep_world "/pkg" None false false
                 (instrumented bare_executor) 0 1) []).
Proof.
  apply (traverseDirs_visits_all deep_world "/pkg" None false false bare_executor 1
           [] [EvExecutor "/pkg"; EvExecutor "/pkg/memory"] 1 "/pkg/memory").
  - intros p o wf up. apply emits_ret.
  - reflexivity.
  - apply (below_child deep_world "/pkg" 0 "/pkg" ["memory"; "README.md"] "memory");
      [constructor | reflexivity | left; reflexivity | reflexivity].
  - lia.
Defined.

(** A directory within the limit is listed after the executor has run
    on it: when the listing fails, the traversal raises that failure. *)
Lemma traverseDirs_unreadable_directory (w : World) (dir : string)
    (outputDirectory : option string) (writeFiles uploadToCI : bool)
    (executor : Executor) (level levelLimit : Z) (log log1 : list Event)
    (what : string) :
  (level <= levelLimit)%Z ->
  executor dir outputDirectory writeFiles uploadToCI log = (Ok tt, log1) ->
  readdirSync w dir = Fails what ->
  traverseDirs w dir outputDirectory writeFiles uploadToCI executor
               level levelLimit log
  = (Raise (Foreign what), log1).
Proof.
  intros Hlevel Hexec Hdir. rewrite traverseDirs_step.
  destruct (Z_gt_dec level levelLimit) as [Hgt | _]; [lia |].
  unfold bind at 1. rewrite Hexec.
  unfold bind, lift. rewrite Hdir. reflexivity.
Qed.

(** X10. Pre-order: a traversal within the limit starts by invoking the
    executor on the directory itself, before it lists it. *)
Theorem traverseDirs_root_first (w : World) (root : string)
    (outputDirectory : option string) (writeFiles uploadToCI : bool)
    (body : Executor) (level levelLimit : Z) (log : list Event) :
  quiet body ->
  (level <= levelLimit)%Z ->
  exists rest,
    emitted (traverseDirs w root outputDirectory writeFiles uploadToCI
               (instrumented body) level levelLimit) log
    = EvExecutor root :: rest.
Proof.
  intros Hq Hlevel.
  assert (Happ : forall k : unit -> M unit, appends (k tt) ->
            exists rest,
              snd (bind (instrumented body root outputDirectory writeFiles uploadToCI)
                        k log)
              = log ++ EvExecutor root :: rest).
  { intros k Hk. unfold bind at 1, instrumented, bind at 1, tell at 1.
    destruct (emits_appends _ _ (Hq root outputDirectory writeFiles uploadToCI)
                (log ++ [EvExecutor root])) as (evs & Hevs).
    destruct (body root outputDirectory writeFiles uploadToCI
                (log ++ [EvExecutor root])) as [[[] | e] l1]; simpl in Hevs; subst l1.
    - destruct (Hk ((log ++ [EvExecutor root]) ++ evs)) as (more & Hmore).
      exists (evs ++ more). rewrite Hmore, <- !app_assoc. reflexivity.
    - exists evs. simpl. rewrite <- app_assoc. reflexivity. }
  rewrite traverseDirs_step.
  destruct (Z_gt_dec level levelLimit) as [Hgt | _]; [lia |].
  match goal with
  | |- context [bind _ ?k] =>
      destruct (Happ k) as (rest & Hrest)
  end.
  - eapply (emits_appends (fun _ => True)).
    apply emits_bind_lift. intros names _. apply emits_for_of. intros name _.
    apply emits_bind_lift. intros [|] _; [| apply emits_ret].
    eapply emits_weaken; [| apply traverseDirs_emits; exact Hq]. auto.
  - exists rest. unfold emitted. rewrite Hrest.
    rewrite skipn_app, skipn_all, Nat.sub_diag. reflexivity.
Qed.

Lemma traverseDirs_root_first_witness :
  exists rest,
    emitted (traverseDirs deep_world "/pkg" None false false
               (instrumented bare_executor) 0 1) []
    = EvExecutor "/pkg" :: rest.
Proof.
  apply (traverseDirs_root_first deep_world "/pkg" None false false bare_executor
           0 1 []).
  - intros p o wf up. apply emits_ret.
  - lia.
Defined.

(** ** Which errors reach the caller *)

Lemma raises_only_foreign {A} (allowed : ErrorCode -> Prop) (m : M A) :
  foreign_only m -> raises_only allowed m.
Proof. intros Hm log c H. exfalso. exact (Hm log c H). Qed.

Lemma raises_only_throw {A} (allowed : ErrorCode -> Prop) (c : ErrorCode) :
  allowed c -> raises_only allowed (@throw A (JsError c)).
Proof. intros Hc log c' [= <-]. exact Hc. Qed.

Lemma raises_only_bind {A B} (allowed : ErrorCode -> Prop) (m : M A) (k : A -> M B) :
  raises_only allowed m -> (forall a, raises_only allowed (k a)) ->
  raises_only allowed (bind m k).
Proof.
  intros Hm Hk log c. unfold bind.
  destruct (m log) as [[a | e] log'] eqn:E.
  - apply Hk.
  - simpl. intros [= ->]. apply (Hm log c). rewrite E. reflexivity.
Qed.

Lemma foreign_only_throw_foreign {A} (what : string) :
  foreign_only (@throw A (Foreign what)).
Proof. intros log c. discriminate. Qed.

Lemma foreign_only_for_of {A} (xs : list A) (body : A -> M unit) :
  (forall x, foreign_only (body x)) -> foreign_only (for_of xs body).
Proof.
  intros Hbody. induction xs as [| x xs IH]; simpl.
  - apply foreign_only_ret.
  - apply foreign_only_bind; auto.
Qed.

Lemma foreign_only_filter_array {A} (xs : list A) (p : A -> M bool) :
  (forall x, foreign_only (p x)) -> foreign_only (filter_array xs p).
Proof.
  intros Hp. induction xs as [| x xs IH]; simpl.
  - apply foreign_only_ret.
  - apply foreign_only_bind; [apply Hp | intros keep].
    apply foreign_only_bind; [exact IH | intros rest; apply foreign_only_ret].
Qed.

Lemma foreign_only_not_awaited (m : M unit) : foreign_only (not_awaited m).
Proof. intros log c. discriminate. Qed.

Lemma foreign_only_traverseDirs (w : World) (dir : string) (out : option string)
    (wf up : bool) (ex : Executor) (level limit : Z) :
  (forall p o f u, foreign_only (ex p o f u)) ->
  foreign_only (traverseDirs w dir out wf up ex level limit).
Proof.
  intros Hex. funelim (traverseDirs w dir out wf up ex level limit).
  - apply foreign_only_ret.
  - apply foreign_only_bind; [apply Hex | intros _].
    apply foreign_only_bind; [apply foreign_only_lift | intros names].
    apply foreign_only_for_of. intros name.
    apply foreign_only_bind; [apply foreign_only_lift | intros isDirectory].
    destruct isDirectory; [| apply foreign_only_ret].
    intros log c. apply (H tt names name true log Hex).
Qed.

Lemma foreign_only_generateReportForModules (w : World) (locations : list string)
    (out : option string) (wf up : bool) :
  foreign_only (generateReportForModules w locations out wf up).
Proof.
  unfold generateReportForModules. apply foreign_only_for_of. intros location.
  apply foreign_only_traverseDirs. intros p o f u. apply foreign_only_not_awaited.
Qed.

Lemma raises_only_generateReport (w : World) (dtsFile bundleFile : string) :
  raises_only (fun c => c = INPUT_FILE_DOES_NOT_EXIST)
              (generateReport w dtsFile bundleFile).
Proof.
  unfold generateReport.
  destruct (negb (existsSync w (resolve w dtsFile))
            || negb (existsSync w (resolve w bundleFile))).
  - apply raises_only_throw. reflexivity.
  - apply raises_only_foreign.
    apply foreign_only_bind;
      [unfold call_extractDeclarations; foreign_only_tac | intros api].
    apply foreign_only_bind; [foreign_only_tac | intros _].
    apply foreign_only_buildJsonReport.
Qed.

(** X11. The batch drops the rejections of the per-module action: the
    executor is called without [await], so [generateReportForModules]
    never raises an error code of the script -- in particular not
    [BUNDLE_FILE_DOES_NOT_EXIST] or [INPUT_FILE_DOES_NOT_EXIST] of a
    module that cannot be analysed. *)
Theorem generateReportForModules_drops_rejections (w : World)
    (moduleLocations : list string) (outputDirectory : option string)
    (writeFiles uploadToCI : bool) (log : list Event) (c : ErrorCode) :
  fst (generateReportForModules w moduleLocations outputDirectory
         writeFiles uploadToCI log)
  <> Raise (JsError c).
Proof.
  apply foreign_only_generateReportForModules.
Qed.

(** A module without a bundle does not stop the batch: the analysis of
    the next module is started. *)
Example generateReportForModules_goes_on :
  fst (generateReportForModule two_modules_world "/ws/a" (Some "out") true false [])
  = Raise (JsError BUNDLE_FILE_DOES_NOT_EXIST)
  /\ generateReportForModules two_modules_world ["/ws/a"; "/ws/b"] (Some "out")
       true false []
     = (Ok tt,
        [EvExtractDeclarations "/ws/b/index.d.ts"; EvConsoleLogMembers no_members]).
Proof. split; reflexivity. Qed.

Lemma for_of_app {A} (xs ys : list A) (body : A -> M unit) (log : list Event) :
  for_of (xs ++ ys) body log
  = bind (for_of xs body) (fun _ => for_of ys body) log.
Proof.
  revert log. induction xs as [| x xs IH]; intros log; simpl.
  - reflexivity.
  - unfold bind in *. destruct (body x log) as [[[] | e] log']; [| reflexivity].
    apply IH.
Qed.

(** ** The part of an action before its first [await] *)

Ltac appends_tac :=
  eapply (emits_appends (fun _ => True));
  repeat first
    [ apply emits_ret
    | apply emits_lift
    | apply emits_throw
    | apply emits_history
    | apply emits_tell; exact I
    | apply emits_for_of_acc; intros
    | apply emits_bind; [ | intros ]
    | match goal with
      | |- emits _ (if ?b then _ else _) => destruct b
      | |- emits _ (match ?x with _ => _ end) => destruct x
      end ].

Lemma snd_bind_appends {A B} (m : M A) (k : A -> M B) (log : list Event)
    (prefix : list Event) :
  (exists rest, snd (m log) = prefix ++ rest) ->
  (forall a, appends (k a)) ->
  exists rest, snd (bind m k log) = prefix ++ rest.
Proof.
  intros (rest & Hm) Hk. unfold bind.
  destruct (m log) as [[a | e] l1]; simpl in Hm; subst l1.
  - destruct (Hk a (prefix ++ rest)) as (more & ->).
    exists (rest ++ more). rewrite app_assoc. reflexivity.
  - exists rest. reflexivity.
Qed.

Lemma buildJsonReport_started_prefix (w : World) (api : MemberList)
    (jsFile : string) (map : gmap string string) (log : list Event) :
  exists rest,
    snd (buildJsonReport w api jsFile map log)
    = snd (buildJsonReport_started api jsFile map log) ++ rest.
Proof.
  unfold buildJsonReport. apply snd_bind_appends; [| intros; appends_tac].
  rewrite buildJsonReport_result_loop. unfold buildJsonReport_started.
  destruct (symbols api) as [| x xs].
  - exists []. simpl. rewrite app_nil_r. reflexivity.
  - cbn [for_of_acc]. unfold tell. cbn [snd].
    apply snd_bind_appends.
    + rewrite record_export_run.
      destruct (extractDependenciesAndSize w log x jsFile map);
        exists []; simpl; rewrite app_nil_r; reflexivity.
    + intros acc. unfold record_export, call_extractDependenciesAndSize.
      appends_tac.
Qed.

Lemma generateReport_started_prefix (w : World) (dtsFile bundleFile : string)
    (log : list Event) :
  exists rest,
    snd (generateReport w dtsFile bundleFile log)
    = snd (generateReport_started w dtsFile bundleFile log) ++ rest.
Proof.
  unfold generateReport, generateReport_started.
  destruct (negb (existsSync w (resolve w dtsFile))
            || negb (existsSync w (resolve w bundleFile))).
  - exists []. simpl. rewrite app_nil_r. reflexivity.
  - unfold bind at 1 3.
    destruct (call_extractDeclarations w (resolve w dtsFile) log)
      as [[api | e] l1]; [| exists []; simpl; rewrite app_nil_r; reflexivity].
    unfold bind at 1 2, tell at 1 2.
    apply buildJsonReport_started_prefix.
Qed.

Lemma bind_lift_run {A B} (r : reply A) (k : A -> M B) (log : list Event) :
  bind (lift r) k log
  = match r with
    | Returns a => k a log
    | Fails what => (Raise (Foreign what), log)
    end.
Proof. unfold bind, lift. destruct r; reflexivity. Qed.

(** What [generateReportForModules] runs of a per-module action is the
    beginning of what the action does when it is run to its end. *)
Lemma generateReportForModule_started_prefix (w : World) (path : string)
    (out : option string) (wf up : bool) (log : list Event) :
  exists rest,
    snd (generateReportForModule w path out wf up log)
    = snd (generateReportForModule_started w path out wf up log) ++ rest.
Proof.
  unfold generateReportForModule, generateReportForModule_started.
  destruct (negb (existsSync w (path ++ "/package.json")));
    [exists []; simpl; rewrite app_nil_r; reflexivity |].
  rewrite !bind_lift_run.
  destruct (require w (path ++ "/package.json")) as [manifest | what];
    [| exists []; simpl; rewrite app_nil_r; reflexivity].
  destruct (Js.truthy (manifest TYPINGS));
    [| exists []; simpl; rewrite app_nil_r; reflexivity].
  destruct (negb (Js.truthy (manifest BUNDLE)));
    [exists []; simpl; rewrite app_nil_r; reflexivity |].
  apply snd_bind_appends; [apply generateReport_started_prefix |].
  intros json. unfold call_basename, string_arg, call_writeReportToDirectory,
    uploadReportToCI.
  appends_tac.
Qed.

(** X12. A module location that cannot be listed aborts the batch: the
    per-module action has been started on it (run up to its first
    [await]), the failure of [readdirSync] is raised, and the locations
    after it are not processed.  Of the actions started before, the
    log holds what they did before their first [await]. *)
Theorem generateReportForModules_unreadable_location (w : World)
    (before after : list string) (bad : string)
    (outputDirectory : option string) (writeFiles uploadToCI : bool)
    (log log1 : list Event) (what : string) :
  generateReportForModules w before outputDirectory writeFiles uploadToCI log
  = (Ok tt, log1) ->
  readdirSync w bad = Fails what ->
  generateReportForModules w (before ++ bad :: after) outputDirectory
    writeFiles uploadToCI log
  = (Raise (Foreign what),
     snd (generateReportForModule_started w bad outputDirectory writeFiles
            uploadToCI log1)).
Proof.
  intros Hbefore Hdir. unfold generateReportForModules in *.
  rewrite for_of_app. unfold bind at 1. rewrite Hbefore. simpl.
  unfold bind at 1.
  rewrite (traverseDirs_unreadable_directory w bad outputDirectory writeFiles
             uploadToCI _ 0 1 log1
             (snd (generateReportForModule_started w bad outputDirectory
                     writeFiles uploadToCI log1)) what);
    [reflexivity | lia | reflexivity | exact Hdir].
Qed.

Lemma generateReportForModules_unreadable_location_witness :
  generateReportForModules two_modules_world (["/ws/b"] ++ "/ws/gone" :: ["/ws/a"])
    (Some "out") true false []
  = (Raise (Foreign "ENOENT"),
     snd (generateReportForModule_started two_modules_world "/ws/gone" (Some "out")
            true false
            [EvExtractDeclarations "/ws/b/index.d.ts";
             EvConsoleLogMembers no_members])).
Proof.
  apply (generateReportForModules_unreadable_location two_modules_world
           ["/ws/b"] ["/ws/a"] "/ws/gone" (Some "out") true false []
           [EvExtractDeclarations "/ws/b/index.d.ts"; EvConsoleLogMembers no_members]
           "ENOENT");
    reflexivity.
Defined.

(** ** The modes of [main] *)

Lemma foreign_only_string_arg (p : option string) : foreign_only (string_arg p).
Proof. destruct p; [apply foreign_only_ret | apply foreign_only_throw_foreign]. Qed.

Lemma raises_only_main_adhoc (w : World) (argv : Argv) :
  raises_only (fun c => c = INPUT_FILE_DOES_NOT_EXIST)
    (bind (string_arg (inputDtsFile argv)) (fun dts =>
     bind (string_arg (inputBundleFile argv)) (fun bundle =>
     bind (generateReport w dts bundle) (fun jsonReport =>
     bind (string_arg (output argv)) (fun file =>
     call_writeReportToFile w jsonReport (resolve w file)))))).
Proof.
  apply raises_only_bind;
    [apply raises_only_foreign, foreign_only_string_arg | intros dts].
  apply raises_only_bind;
    [apply raises_only_foreign, foreign_only_string_arg | intros bundle].
  apply raises_only_bind; [apply raises_only_generateReport | intros json].
  apply raises_only_foreign.
  apply foreign_only_bind; [apply foreign_only_string_arg | intros file].
  unfold call_writeReportToFile. foreign_only_tac.
Qed.

Lemma foreign_only_main_batch (w : World) (argv : Argv) :
  foreign_only
    (bind (lift (mapWorkspaceToPackages w [(projectRoot w ++ "/packages-exp/*")%string]))
       (fun allModulesLocation =>
     bind (match inputModule argv with
           | Some names =>
               filter_array allModulesLocation (fun path =>
                 bind (lift (require w (path ++ "/package.json")%string))
                      (fun json => ret (includes names (json "name"))))
           | None => ret allModulesLocation
           end) (fun allModulesLocation =>
     generateReportForModules w allModulesLocation (output argv)
       (Js.truthy_opt (output argv)) (ci argv)))).
Proof.
  apply foreign_only_bind; [apply foreign_only_lift | intros locations].
  apply foreign_only_bind.
  - destruct (inputModule argv) as [names |]; [| apply foreign_only_ret].
    apply foreign_only_filter_array. intros path. foreign_only_tac.
  - intros selected. apply foreign_only_generateReportForModules.
Qed.

(** X13. The error code that [main] raises is decided by the flags:
    [REPORT_REDIRECTION_ERROR] exactly when neither [--output] nor
    [--ci] is set; [INVALID_FLAG_COMBINATION] exactly when there is a
    redirection, the three adhoc flags are not all set, and one of
    [--inputDtsFile], [--inputBundleFile] is set;
    [INPUT_FILE_DOES_NOT_EXIST] only in adhoc mode; and
    [BUNDLE_FILE_DOES_NOT_EXIST] never. *)
Theorem main_error_codes (w : World) (argv : Argv) (log : list Event) :
  let out := Js.truthy_opt (output argv) in
  let dts := Js.truthy_opt (inputDtsFile argv) in
  let bundle := Js.truthy_opt (inputBundleFile argv) in
  (fst (main w argv log) = Raise (JsError REPORT_REDIRECTION_ERROR)
   <-> out = false /\ ci argv = false)
  /\ (fst (main w argv log) = Raise (JsError INVALID_FLAG_COMBINATION)
      <-> (out = true \/ ci argv = true)
          /\ dts && bundle && out = false
          /\ (dts = true \/ bundle = true))
  /\ (fst (main w argv log) = Raise (JsError INPUT_FILE_DOES_NOT_EXIST)
      -> dts && bundle && out = true)
  /\ fst (main w argv log) <> Raise (JsError BUNDLE_FILE_DOES_NOT_EXIST).
Proof.
  intros out dts bundle. subst out dts bundle. unfold main.
  pose proof (raises_only_main_adhoc w argv log) as Hadhoc.
  pose proof (foreign_only_main_batch w argv log) as Hbatch.
  destruct (Js.truthy_opt (output argv)) eqn:Eo; destruct (ci argv) eqn:Ec;
    destruct (Js.truthy_opt (inputDtsFile argv)) eqn:Ed;
    destruct (Js.truthy_opt (inputBundleFile argv)) eqn:Eb; simpl;
    repeat split;
    try match goal with
        | |- _ -> _ => intros H
        end;
    try discriminate; try reflexivity; auto;
    try (exfalso; apply Hadhoc in H; discriminate);
    try (exfalso; exact (Hbatch _ H));
    try (intros H; apply Hadhoc in H; discriminate);
    try (intros H; exact (Hbatch _ H));
    try (destruct H as (H1 & H2 & H3); simpl in *; intuition discriminate);
    try (destruct H as [H1 H2]; discriminate).
Qed.

(** X14. Adhoc mode.  With the three adhoc flags set, [main] analyses
    the two given files and hands the report to [writeReportToFile] at
    the resolved output path; [--ci] and [--inputModule] play no part
    (nothing is uploaded, no workspace is scanned), and when the
    analysis fails nothing is written. *)
Theorem main_adhoc (w : World) (argv : Argv) (log : list Event)
    (dts bundle out : string) :
  inputDtsFile argv = Some dts ->
  inputBundleFile argv = Some bundle ->
  output argv = Some out ->
  dts <> "" -> bundle <> "" -> out <> "" ->
  match generateReport w dts bundle log with
  | (Ok json, log1) =>
      main w argv log
      = (match writeReportToFile w json (resolve w out) with
         | Returns _ => Ok tt
         | Fails what => Raise (Foreign what)
         end,
         log1 ++ [EvWriteReportToFile json (resolve w out)])
  | (Raise e, log1) => main w argv log = (Raise e, log1)
  end.
Proof.
  intros Hdts Hbundle Hout Hd Hb Ho.
  apply String.eqb_neq in Hd, Hb, Ho.
  unfold main, Js.truthy_opt. rewrite Hdts, Hbundle, Hout, Hd, Hb, Ho. simpl.
  cbv [bind string_arg ret call_writeReportToFile tell lift].
  destruct (generateReport w dts bundle log) as [[json | e] log1]; [| reflexivity].
  destruct (writeReportToFile w json (resolve w out)) as [[] | what]; reflexivity.
Qed.

Lemma main_adhoc_witness :
  main two_modules_world (argv_adhoc true) []
  = (Ok tt,
     [EvExtractDeclarations "/ws/b/index.d.ts"; EvConsoleLogMembers no_members]
       ++ [EvWriteReportToFile "{}" "report.json"]).
Proof.
  exact (main_adhoc two_modules_world (argv_adhoc true) []
           "/ws/b/index.d.ts" "/ws/b/index.esm2017.js" "report.json"
           eq_refl eq_refl eq_refl
           ltac:(discriminate) ltac:(discriminate) ltac:(discriminate)).
Defined.

Lemma filter_array_pure {A} (xs : list A) (p : A -> M bool) (q : A -> bool)
    (log : list Event) :
  (forall x, In x xs -> p x log = (Ok (q x), log)) ->
  filter_array xs p log = (Ok (List.filter q xs), log).
Proof.
  induction xs as [| x xs IH]; intros Hp; simpl; [reflexivity |].
  unfold bind at 1. rewrite (Hp x (or_introl eq_refl)).
  unfold bind at 1. rewrite IH by (intros y Hy; apply Hp; right; exact Hy).
  unfold ret. destruct (q x); reflexivity.
Qed.



(** X16. [--inputModule] given without a name selects no module: the
    run ends normally and nothing is analysed, written or uploaded. *)
Theorem main_batch_empty_inputModule (w : World) (argv : Argv)
    (log : list Event) (locations : list string)
    (manifest_of : string -> string -> Js.Value) :
  Js.truthy_opt (output argv) = true \/ ci argv = true ->
  Js.truthy_opt (inputDtsFile argv) = false ->
  Js.truthy_opt (inputBundleFile argv) = false ->
  mapWorkspaceToPackages w [(projectRoot w ++ "/packages-exp/*")%string]
  = Returns locations ->
  inputModule argv = Some [] ->
  (forall path, In path locations ->
     require w (path ++ "/package.json") = Returns (manifest_of path)) ->
  main w argv log = (Ok tt, log).
Proof.
  intros Hredirect Hdts Hbundle Hws Hnames Hrequire.
  unfold main. rewrite Hdts, Hbundle, Hnames.
  replace (negb (Js.truthy_opt (output argv)) && negb (ci argv)) with false
    by (destruct Hredirect as [-> | ->]; simpl; rewrite ?andb_false_r; reflexivity).
  simpl. unfold bind at 1, lift at 1. rewrite Hws.
  unfold bind at 1.
  rewrite (filter_array_pure locations _ (fun _ => false)).
  - replace (List.filter (fun _ : string => false) locations) with (@nil string)
      by (clear; induction locations; simpl; auto).
    reflexivity.
  - intros path Hin. unfold bind, lift, ret. rewrite (Hrequire path Hin).
    unfold includes. destruct (manifest_of path "name"); reflexivity.
Qed.

Lemma main_batch_empty_inputModule_witness :
  main two_modules_world (argv_batch (Some []) (Some "out") true) [] = (Ok tt, []).
Proof.
  apply (main_batch_empty_inputModule two_modules_world
           (argv_batch (Some []) (Some "out") true) []
           ["/ws/a"; "/ws/b"]
           (fun path => two_modules_manifest (path ++ "/package.json"))).
  - left. reflexivity.
  - reflexivity.
  - reflexivity.
  - reflexivity.
  - reflexivity.
  - intros path _. reflexivity.
Defined.

(** ** Runs that write nothing *)







(** ** The symbol index of [buildMap] *)

(** X18. [buildMap] maps a symbol to the name of the last key of the
    member list, in the order of [Object.keys], under which the symbol
    is listed, and has no entry for a symbol that is listed nowhere. *)
Theorem buildMap_lookup (api : MemberList) (s : string) :
  buildMap api !! s
  = option_map key_name (find (listed api s) (rev (own_keys api))).
Proof.
  unfold buildMap. rewrite buildMap_fold_lookup.
  destruct (find (listed api s) (rev (own_keys api))); [reflexivity |].
  apply lookup_empty.
Qed.

(** X19. For a member list that keeps the invariant (a symbol is in at
    most one category), the index is right whatever the property order
    of the object: every symbol is mapped to the category that lists
    it. *)
Theorem buildMap_of_disjoint_categories (api : MemberList) (c : Category)
    (s : string) :
  In c (own_keys api) ->
  In s (member api c) ->
  (forall c', c' <> c -> ~ In s (member api c')) ->
  buildMap api !! s = Some (key_name c).
Proof.
  intros Hkey Hin Hdisjoint.
  unfold buildMap. rewrite buildMap_fold_lookup.
  destruct (find (listed api s) (rev (own_keys api))) as [c' |] eqn:E.
  - apply find_some in E. destruct E as [_ Hlisted].
    apply listed_In in Hlisted.
    destruct c, c'; try reflexivity;
      (exfalso; eapply Hdisjoint; [| exact Hlisted]; discriminate).
  - exfalso.
    assert (Hfalse : listed api s c = false).
    { apply (find_none _ _ E c). apply in_rev. rewrite rev_involutive. exact Hkey. }
    apply listed_In in Hin. congruence.
Qed.

Lemma buildMap_of_disjoint_categories_witness :
  buildMap {| own_keys := [Functions; Enums; Classes; Variables];
              classes := ["Bar"]; functions := ["foo"; "baz"];
              variables := ["VERSION"]; enums := [] |} !! "baz"
  = Some "functions".
Proof.
  apply (buildMap_of_disjoint_categories
           {| own_keys := [Functions; Enums; Classes; Variables];
              classes := ["Bar"]; functions := ["foo"; "baz"];
              variables := ["VERSION"]; enums := [] |} Functions "baz").
  - left. reflexivity.
  - right. left. reflexivity.
  - intros c' Hc Hin. destruct c'; simpl in Hin;
      [ destruct Hin as [H | []]; discriminate
      | apply Hc; reflexivity
      | destruct Hin as [H | []]; discriminate
      | destruct Hin ].
Defined.
